(** * VPS dashboard: the three protocol / format probes of [app.py]

    A shallow embedding of [tail_file], [bedrock_status] and the dump
    parser of [vpn_status], together with the Python built-ins they
    call ([bytes.decode], [str.splitlines], [str.split], [str.strip],
    [str.isdigit], [int], [bytes.find], [struct.pack], slicing).

    Conventions.
    - [bytes]  : a Python [bytes] object, a list of [Byte.byte].
    - [str]    : a Python [str], a list of Unicode code points ([N]).
    - [io A]   : the outcome of a statement that may raise.
    - Python integers are [Z]; lengths and offsets that the code obtains
      from [len], [tell] or [find] are [nat]. *)

From Stdlib Require Import List Bool Arith ZArith NArith Lia.
From Stdlib.Strings Require Import Byte Ascii.
From Stdlib.Strings Require String.
Import String.StringSyntax.
Import ListNotations.

Set Implicit Arguments.

Definition bytes := list byte.
Definition str := list N.

(** ** Outcomes of statements that may raise *)

Inductive io (A : Type) : Type :=
| Ok (a : A)
| Raise.

Arguments Ok {A} a.
Arguments Raise {A}.

Definition bind {A B} (m : io A) (k : A -> io B) : io B :=
  match m with
  | Ok a => k a
  | Raise => Raise
  end.

Notation "x <- m ;; k" := (bind m (fun x => k))
  (at level 61, m at next level, right associativity).
Notation "m ;;; k" := (bind m (fun _ => k))
  (at level 61, right associativity).

(** [try: ... except Exception: return d]. *)
Definition try_except {A} (m : io A) (d : A) : A :=
  match m with
  | Ok a => a
  | Raise => d
  end.

(** ** Literals *)

Definition cp_of_ascii (a : ascii) : N := N_of_ascii a.

Definition lit (s : String.string) : str :=
  map cp_of_ascii (String.list_ascii_of_string s).

Arguments lit s%_string_scope.

Definition bv (b : byte) : N := Byte.to_N b.

Definition LF : N := 10.
Definition CR : N := 13.
Definition TAB : N := 9.
Definition NUL : N := 0.
Definition SEMI : N := 59.
Definition REPLACEMENT : N := 0xFFFD.

(** ** [bytes.decode("utf-8", errors=...)]

    The decoder scans left to right.  A malformed or truncated sequence
    is an error range of one to three bytes; the handler contributes
    [on_error] for the whole range and decoding resumes right after it.
    ["replace"] contributes U+FFFD, ["ignore"] contributes nothing.
    [utf8_scan] yields [Some c] for a decoded character and [None] for
    an error range. *)

Inductive error_handler := Replace | Ignore.

Definition on_error (h : error_handler) : str :=
  match h with
  | Replace => [REPLACEMENT]
  | Ignore => []
  end.

Definition is_cont (b : byte) : bool :=
  ((0x80 <=? bv b) && (bv b <? 0xC0))%N.

(** Second byte after a three-byte lead: a continuation byte, not
    overlong after E0, not a surrogate after ED. *)
Definition second_ok3 (b1 b2 : byte) : bool :=
  is_cont b2 &&
  negb (if (bv b2 <? 0xA0)%N then (bv b1 =? 0xE0)%N else (bv b1 =? 0xED)%N).

(** Second byte after a four-byte lead: a continuation byte, not
    overlong after F0, not above U+10FFFF after F4. *)
Definition second_ok4 (b1 b2 : byte) : bool :=
  is_cont b2 &&
  negb (if (bv b2 <? 0x90)%N then (bv b1 =? 0xF0)%N else (bv b1 =? 0xF4)%N).

Definition low6 (b : byte) : N := N.land (bv b) 0x3F.

Definition cp2 (b1 b2 : byte) : N :=
  N.lor (N.shiftl (N.land (bv b1) 0x1F) 6) (low6 b2).

Definition cp3 (b1 b2 b3 : byte) : N :=
  N.lor (N.shiftl (N.land (bv b1) 0x0F) 12)
        (N.lor (N.shiftl (low6 b2) 6) (low6 b3)).

Definition cp4 (b1 b2 b3 b4 : byte) : N :=
  N.lor (N.shiftl (N.land (bv b1) 0x07) 18)
        (N.lor (N.shiftl (low6 b2) 12)
               (N.lor (N.shiftl (low6 b3) 6) (low6 b4))).

Fixpoint utf8_scan (bs : bytes) : list (option N) :=
  match bs with
  | [] => []
  | b1 :: r1 =>
    if (bv b1 <? 0x80)%N then Some (bv b1) :: utf8_scan r1
    else if (bv b1 <? 0xC2)%N then None :: utf8_scan r1
    else if (bv b1 <? 0xE0)%N then
      match r1 with
      | [] => [None]
      | b2 :: r2 =>
        if is_cont b2 then Some (cp2 b1 b2) :: utf8_scan r2
        else None :: utf8_scan r1
      end
    else if (bv b1 <? 0xF0)%N then
      match r1 with
      | [] => [None]
      | b2 :: r2 =>
        if second_ok3 b1 b2 then
          match r2 with
          | [] => [None]
          | b3 :: r3 =>
            if is_cont b3 then Some (cp3 b1 b2 b3) :: utf8_scan r3
            else None :: utf8_scan r2
          end
        else None :: utf8_scan r1
      end
    else if (bv b1 <? 0xF5)%N then
      match r1 with
      | [] => [None]
      | b2 :: r2 =>
        if second_ok4 b1 b2 then
          match r2 with
          | [] => [None]
          | b3 :: r3 =>
            if is_cont b3 then
              match r3 with
              | [] => [None]
              | b4 :: r4 =>
                if is_cont b4 then Some (cp4 b1 b2 b3 b4) :: utf8_scan r4
                else None :: utf8_scan r3
              end
            else None :: utf8_scan r2
          end
        else None :: utf8_scan r1
      end
    else None :: utf8_scan r1
  end.

(** What a handler makes of a scanned item. *)
Definition emit (h : error_handler) (t : option N) : str :=
  match t with
  | Some c => [c]
  | None => on_error h
  end.

Definition utf8_decode (h : error_handler) (bs : bytes) : str :=
  flat_map (emit h) (utf8_scan bs).

(** ** [str.splitlines()]

    The line boundaries of [str.splitlines]: LF, VT, FF, CR, FS, GS, RS,
    NEL, LS and PS; CR LF counts as one boundary; no empty last line
    after a final boundary. *)

Definition is_linebreak (c : N) : bool :=
  ((10 <=? c) && (c <=? 13) || (0x1C <=? c) && (c <=? 0x1E)
   || (c =? 0x85) || (c =? 0x2028) || (c =? 0x2029))%N.

Fixpoint splitlines (s : str) : list str :=
  match s with
  | [] => []
  | c :: r =>
    if is_linebreak c then
      if (c =? CR)%N then
        match r with
        | c' :: r' => if (c' =? LF)%N then [] :: splitlines r'
                      else [] :: splitlines r
        | [] => [[]]
        end
      else [] :: splitlines r
    else
      match splitlines r with
      | [] => [[c]]
      | l :: ls => (c :: l) :: ls
      end
  end.

(** ** [str.split(sep)] for a one-character separator *)

Fixpoint split_on (sep : N) (s : str) : list str :=
  match s with
  | [] => [[]]
  | c :: r =>
    if (c =? sep)%N then [] :: split_on sep r
    else
      match split_on sep r with
      | [] => [[c]]
      | f :: fs => (c :: f) :: fs
      end
  end.

(** ** [str.strip(chars)] and [str.strip()] *)

Fixpoint lstrip (p : N -> bool) (s : str) : str :=
  match s with
  | [] => []
  | c :: r => if p c then lstrip p r else s
  end.

Definition rstrip (p : N -> bool) (s : str) : str := rev (lstrip p (rev s)).

Definition strip (p : N -> bool) (s : str) : str := rstrip p (lstrip p s).

(** The characters [str.strip()] removes ([str.isspace]). *)
Definition is_space (c : N) : bool :=
  ((9 <=? c) && (c <=? 13) || (0x1C <=? c) && (c <=? 0x20)
   || (c =? 0x85) || (c =? 0xA0) || (c =? 0x1680)
   || (0x2000 <=? c) && (c <=? 0x200A)
   || (c =? 0x2028) || (c =? 0x2029) || (c =? 0x202F)
   || (c =? 0x205F) || (c =? 0x3000))%N.

(** [sep.join(fields)]. *)
Fixpoint join (sep : N) (fs : list str) : str :=
  match fs with
  | [] => []
  | [f] => f
  | f :: fs' => f ++ sep :: join sep fs'
  end.

(** Truth value of a [str]. *)
Definition truthy (s : str) : bool :=
  match s with
  | [] => false
  | _ => true
  end.

Fixpoint str_eqb (a b : str) : bool :=
  match a, b with
  | [], [] => true
  | x :: a', y :: b' => (x =? y)%N && str_eqb a' b'
  | _, _ => false
  end.

(** ** Slicing: [l[-n:]] *)

Definition last_slice {A} (n : Z) (l : list A) : list A :=
  let len := Z.of_nat (length l) in
  let start := (- n)%Z in
  let start := if (start <? 0)%Z then Z.max 0 (start + len)
               else Z.min start len in
  skipn (Z.to_nat start) l.

(** * TailReader: [tail_file] *)

Module Tail.

(** An open binary file.  [f_size] is [f.seek(0, os.SEEK_END)] followed
    by [f.tell()]; [f_seek pos] is [f.seek(pos)]; [f_read pos k] is
    [f.read(k)] with the file position at [pos].  Each may raise. *)
Record file := {
  f_size : io nat;
  f_seek : nat -> io unit;
  f_read : nat -> nat -> io bytes
}.

(** [open(path, "rb")]. *)
Definition filesystem := str -> io file.

(** A file that holds [content] and whose operations all succeed. *)
Definition file_of (content : bytes) : file :=
  {| f_size := Ok (length content);
     f_seek := fun _ => Ok tt;
     f_read := fun pos k => Ok (firstn k (skipn pos content)) |}.

(** [data.count(b"\n")]. *)
Fixpoint count_nl (data : bytes) : nat :=
  match data with
  | [] => 0
  | b :: r => if Byte.eqb b x0a then S (count_nl r) else count_nl r
  end.

Record scan_state := { size : nat; data : bytes }.

Inductive step_result :=
| Continue (st : scan_state)
| Exit
| Fault.

(** [size > 0 and data.count(b"\n") <= n]. *)
Definition scan_guard (n : Z) (st : scan_state) : bool :=
  (0 <? size st) && (Z.of_nat (count_nl (data st)) <=? n)%Z.

(** One evaluation of the loop test and, if it holds, of the body. *)
Definition scan_step (f : file) (block : nat) (n : Z) (st : scan_state)
  : step_result :=
  if scan_guard n st then
    let step := Nat.min block (size st) in
    let size' := size st - step in
    match f_seek f size' ;;; f_read f size' step with
    | Ok chunk => Continue {| size := size'; data := chunk ++ data st |}
    | Raise => Fault
    end
  else Exit.

(** The [while] loop.  [None]: the loop is still running after [fuel]
    executions of its body. *)
Fixpoint scan (fuel : nat) (f : file) (block : nat) (n : Z) (st : scan_state)
  : option (io scan_state) :=
  match scan_step f block n st with
  | Exit => Some (Ok st)
  | Fault => Some Raise
  | Continue st' =>
    match fuel with
    | O => None
    | S k => scan k f block n st'
    end
  end.

(** [data.decode("utf-8", errors="replace").splitlines()]. *)
Definition text_lines (data : bytes) : list str :=
  splitlines (utf8_decode Replace data).

(** The body of the [try], for a given [block]. *)
Definition tail_body (block : nat) (fs : filesystem) (path : str) (n : Z)
  : option (io (list str)) :=
  match fs path with
  | Raise => Some Raise
  | Ok f =>
    match f_size f with
    | Raise => Some Raise
    | Ok sz =>
      match scan sz f block n {| size := sz; data := [] |} with
      | None => None
      | Some Raise => Some Raise
      | Some (Ok st) => Some (Ok (last_slice n (text_lines (data st))))
      end
    end
  end.

Definition tail_file_block (block : nat) (fs : filesystem) (path : str)
  (n : Z) : option (list str) :=
  option_map (fun r => try_except r []) (tail_body block fs path n).

(** [tail_file], with [block = 1024] as in the source. *)
Definition tail_file : filesystem -> str -> Z -> option (list str) :=
  tail_file_block 1024.

(** *** Notions the statements about [tail_file] use *)

(** The last [k] elements of a list. *)
Definition last_lines {A} (k : nat) (l : list A) : list A :=
  skipn (length l - k) l.

(** A file of newline-terminated lines. *)
Definition unlines (ls : list bytes) : bytes :=
  flat_map (fun l => l ++ [x0a]) ls.

(** A line whose text holds no line boundary. *)
Definition plain_line (l : bytes) : Prop :=
  forallb (fun c => negb (is_linebreak c)) (utf8_decode Replace l) = true.

(** Some seek or read that the loop performs from [st] on raises. *)
Inductive scan_faults (f : file) (block : nat) (n : Z) : scan_state -> Prop :=
| fault_now st :
    scan_step f block n st = Fault -> scan_faults f block n st
| fault_later st st' :
    scan_step f block n st = Continue st' ->
    scan_faults f block n st' -> scan_faults f block n st.

(** The ways [tail_file] can fail, and the empty file. *)
Inductive tail_fails (fs : filesystem) (path : str) (n : Z) : Prop :=
| open_fails : fs path = Raise -> tail_fails fs path n
| size_fails f : fs path = Ok f -> f_size f = Raise -> tail_fails fs path n
| scan_fails f sz :
    fs path = Ok f -> f_size f = Ok sz ->
    scan_faults f 1024 n {| size := sz; data := [] |} ->
    tail_fails fs path n
| empty_file f : fs path = Ok f -> f_size f = Ok 0 -> tail_fails fs path n.

End Tail.

(** ** Sequence access: [l[i]] raises [IndexError] out of range *)

Definition getitem {A} (l : list A) (i : nat) : io A :=
  match nth_error l i with
  | Some a => Ok a
  | None => Raise
  end.

(** ** [str.isdigit()] and [int(str)]

    Which non-ASCII characters are digits is a table of the Unicode
    database of the interpreter; the probes are parametric in it.
    [decimal_of] gives the value of the non-ASCII decimal digits
    (category Nd), [digit_other] holds for the non-ASCII characters
    that [str.isdigit] accepts and [int] rejects (superscripts and the
    like).  ASCII is fixed.  [int_refuses] is the interpreter's guard
    against long digit strings ([sys.set_int_max_str_digits]); without
    it Python integers are unbounded. *)

Record runtime := {
  decimal_of : N -> option N;
  digit_other : N -> bool;
  int_refuses : str -> bool
}.

Definition char_decimal (rt : runtime) (c : N) : option N :=
  if (c <? 128)%N then
    if ((48 <=? c) && (c <=? 57))%N then Some (c - 48)%N else None
  else decimal_of rt c.

Definition char_isdigit (rt : runtime) (c : N) : bool :=
  match char_decimal rt c with
  | Some _ => true
  | None => (128 <=? c)%N && digit_other rt c
  end.

Definition py_isdigit (rt : runtime) (s : str) : bool :=
  truthy s && forallb (char_isdigit rt) s.

Fixpoint int_acc (rt : runtime) (acc : N) (s : str) : io N :=
  match s with
  | [] => Ok acc
  | c :: r =>
    match char_decimal rt c with
    | Some d => int_acc rt (10 * acc + d)%N r
    | None => Raise
    end
  end.

(** [int(s)] for a string of digit characters (the only strings the
    code passes to [int]); [ValueError] for a digit without decimal
    value and for a string the guard refuses. *)
Definition py_int (rt : runtime) (s : str) : io Z :=
  match s with
  | [] => Raise
  | _ =>
    if int_refuses rt s then Raise
    else v <- int_acc rt 0 s ;; Ok (Z.of_N v)
  end.

(** An interpreter without non-ASCII digits and without the guard. *)
Definition ascii_rt : runtime :=
  {| decimal_of := fun _ => None; digit_other := fun _ => false;
     int_refuses := fun _ => false |}.

(** The Latin-1 part of the Unicode database: superscript two, three
    and one are digits without decimal value. *)
Definition latin1_rt : runtime :=
  {| decimal_of := fun _ => None;
     digit_other := fun c => ((c =? 0xB2) || (c =? 0xB3) || (c =? 0xB9))%N;
     int_refuses := fun _ => false |}.

(** The guard as CPython sets it by default: at most 4300 digits. *)
Definition guarded_rt : runtime :=
  {| decimal_of := fun _ => None; digit_other := fun _ => false;
     int_refuses := fun s => 4300 <? length s |}.

(** * DiscoveryProbe: [bedrock_status] *)

Module Bedrock.

Definition magic : bytes :=
  [x00; xff; xff; x00; xfe; xfe; xfe; xfe; xfd; xfd; xfd; xfd; x12; x34; x56; x78].

Definition byte_of_Z (z : Z) : byte :=
  match Byte.of_N (Z.to_N (Z.land z 0xFF)) with
  | Some b => b
  | None => x00
  end.

(** The [k] low-order bytes of [v], most significant first. *)
Fixpoint be_bytes (k : nat) (v : Z) : bytes :=
  match k with
  | O => []
  | S k' => byte_of_Z (Z.shiftr v (8 * Z.of_nat k')) :: be_bytes k' v
  end.

(** The unsigned integer a byte string denotes, most significant first. *)
Definition be_value (bs : bytes) : Z :=
  fold_left (fun acc b => (256 * acc + Z.of_N (bv b))%Z) bs 0%Z.

(** [struct.pack(">Q", v)]; [struct.error] out of range. *)
Definition pack_Q (v : Z) : io bytes :=
  if ((0 <=? v) && (v <? 2 ^ 64))%Z then Ok (be_bytes 8 v) else Raise.

(** [random.getrandbits(k)] on the generator's next output. *)
Definition getrandbits (k : Z) (next : Z) : Z := (next mod 2 ^ k)%Z.

(** The network and the clock as one call of the probe meets them.
    [time_ms] is [int(time.time()*1000)]; [sock_recvfrom] is the data of
    [s.recvfrom(2048)] and raises on timeout. *)
Record net := {
  sock_open : io unit;
  sock_settimeout : io unit;
  time_ms : Z;
  rand_next : Z;
  sock_sendto : bytes -> str -> Z -> io unit;
  sock_recvfrom : io bytes;
  sock_close : io unit
}.

Record datagram := { dg_payload : bytes; dg_host : str; dg_port : Z }.

(** The returned dict; a key that is not set is [None]. *)
Record ping_result := {
  online : bool;
  motd : option str;
  version : option str;
  players : option (list str);
  player_count : option Z;
  max_players : option Z
}.

Definition offline : ping_result :=
  {| online := false; motd := None; version := None; players := None;
     player_count := None; max_players := None |}.

Definition online_only : ping_result :=
  {| online := true; motd := None; version := None; players := None;
     player_count := None; max_players := None |}.

Fixpoint is_prefix (pat s : bytes) : bool :=
  match pat, s with
  | [], _ => true
  | p :: pat', c :: s' => Byte.eqb p c && is_prefix pat' s'
  | _ :: _, [] => false
  end.

(** [data.find(pat)]; [None] is Python's [-1]. *)
Fixpoint find (pat s : bytes) : option nat :=
  if is_prefix pat s then Some O
  else
    match s with
    | [] => None
    | _ :: r => option_map S (find pat r)
    end.

(** [parts[i] if len(parts) > i else d]. *)
Definition field_or (parts : list str) (i : nat) (d : str) : io str :=
  if i <? length parts then getitem parts i else Ok d.

(** [int(parts[i]) if len(parts) > i and parts[i].isdigit() else 0]. *)
Definition int_field (rt : runtime) (parts : list str) (i : nat) : io Z :=
  c <- (if i <? length parts
        then p <- getitem parts i ;; Ok (py_isdigit rt p)
        else Ok false) ;;
  if c then p <- getitem parts i ;; py_int rt p else Ok 0%Z.

(** [data[idx+len(magic):].decode("utf-8", errors="ignore").strip("\x00")]
    followed by [.split(";")]. *)
Definition server_id (data : bytes) (idx : nat) : str :=
  strip (N.eqb NUL) (utf8_decode Ignore (skipn (idx + length magic) data)).

Definition pong_fields (data : bytes) (idx : nat) : list str :=
  split_on SEMI (server_id data idx).

(** [if not data or data[0] != 0x1c]. *)
Definition not_pong (data : bytes) : bool :=
  match data with
  | [] => true
  | b :: _ => negb (Byte.eqb b x1c)
  end.

(** From the test of the reply's first byte to the final [return]. *)
Definition bedrock_reply (rt : runtime) (data : bytes) : io ping_result :=
  if not_pong data then Ok offline
  else
    match find magic data with
    | None => Ok online_only
    | Some idx =>
      let parts := pong_fields data idx in
      m <- field_or parts 1 (lit "Minecraft Bedrock") ;;
      v <- field_or parts 3 (lit "Bedrock") ;;
      o <- int_field rt parts 4 ;;
      mx <- int_field rt parts 5 ;;
      Ok {| online := true; motd := Some m; version := Some v;
            players := Some []; player_count := Some o;
            max_players := Some mx |}
    end.

(** The ping packet. *)
Definition build_ping (env : net) : io bytes :=
  t <- pack_Q (time_ms env) ;;
  g <- pack_Q (getrandbits 64 (rand_next env)) ;;
  Ok ([x01] ++ t ++ magic ++ g).

(** The body of the [try]: the datagrams handed to the network and the
    outcome. *)
Definition bedrock_exec (rt : runtime) (env : net) (host : str) (port : Z)
  : list datagram * io ping_result :=
  match sock_open env ;;; sock_settimeout env ;;; build_ping env with
  | Raise => ([], Raise)
  | Ok payload =>
    match sock_sendto env payload host port with
    | Raise => ([], Raise)
    | Ok _ =>
      ([{| dg_payload := payload; dg_host := host; dg_port := port |}],
       data <- sock_recvfrom env ;;
       sock_close env ;;;
       bedrock_reply rt data)
    end
  end.

Definition bedrock_sent (rt : runtime) (env : net) (host : str) (port : Z)
  : list datagram :=
  fst (bedrock_exec rt env host port).

Definition bedrock_status (rt : runtime) (env : net) (host : str) (port : Z)
  : ping_result :=
  try_except (snd (bedrock_exec rt env host port)) offline.

(** The field list as the specification words it: replacement decoding,
    trailing NULs stripped, split on [;]. *)
Definition spec_pong_fields (data : bytes) (idx : nat) : list str :=
  split_on SEMI
    (rstrip (N.eqb NUL) (utf8_decode Replace (skipn (idx + length magic) data))).

(** *** Notions the statements about [bedrock_status] use *)

(** [sub] occurs in [s] as a contiguous substring. *)
Definition occurs (sub s : bytes) : Prop :=
  exists pre post, s = pre ++ sub ++ post.

(** The network carries the ping to [(host, port)] and hands [data]
    back as the reply. *)
Record delivers (env : net) (host : str) (port : Z) (data : bytes) : Prop := {
  dl_open : sock_open env = Ok tt;
  dl_settimeout : sock_settimeout env = Ok tt;
  dl_time : (0 <= time_ms env < 2 ^ 64)%Z;
  dl_sendto : forall p, build_ping env = Ok p ->
              sock_sendto env p host port = Ok tt;
  dl_recvfrom : sock_recvfrom env = Ok data;
  dl_close : sock_close env = Ok tt
}.

(** Timeout, an exception during socket setup, send or receive, an
    empty reply, a reply that does not start with 0x1C. *)
Inductive probe_fails (env : net) (host : str) (port : Z) : Prop :=
| socket_fails : sock_open env = Raise -> probe_fails env host port
| settimeout_fails : sock_settimeout env = Raise -> probe_fails env host port
| send_fails :
    (forall p, build_ping env = Ok p -> sock_sendto env p host port = Raise) ->
    probe_fails env host port
| receive_fails : sock_recvfrom env = Raise -> probe_fails env host port
| empty_reply : sock_recvfrom env = Ok [] -> probe_fails env host port
| wrong_id b r : sock_recvfrom env = Ok (b :: r) -> b <> x1c ->
    probe_fails env host port.

(** The layout of the ping: 0x01, the time, the magic, eight more bytes. *)
Definition ping_layout (t : Z) (payload : bytes) : Prop :=
  exists stamp guid,
    payload = [x01] ++ stamp ++ magic ++ guid /\
    length stamp = 8 /\ be_value stamp = t /\ length guid = 8.

End Bedrock.

(** * PeerStatusParser: the dump parser of [vpn_status] *)

Module Vpn.

Record iface_info := { public_key : str; listen_port : option Z }.

Record peer := {
  peer_key : str;
  endpoint : str;
  allowed_ips : str;
  latest_handshake : Z;
  handshake_age_sec : option Z;
  transfer_rx : Z;
  transfer_tx : Z;
  persistent_keepalive : option Z
}.

(** The returned dict; a key that is not set is [None]. *)
Record status := {
  type : str;
  iface : option str;
  running : bool;
  interface : option iface_info;
  peers : option (list peer)
}.

(** What the host answers during one call: the output of
    [try_cmd(["sudo", "/usr/bin/wg", "show", iface, "dump"])], whether
    [shutil.which("systemctl")] finds something, the output of
    [try_cmd(["systemctl", "is-active", unit])], and [int(time.time())]. *)
Record host := {
  wg_dump : str;
  has_systemctl : bool;
  unit_state : str;
  now : Z
}.

(** [int(p[i]) if p[i].isdigit() else 0]. *)
Definition num_field (rt : runtime) (p : list str) (i : nat) : io Z :=
  t <- getitem p i ;;
  if py_isdigit rt t then t' <- getitem p i ;; py_int rt t' else Ok 0%Z.

(** [p[i] if p[i] != "(none)" else ""]. *)
Definition none_field (p : list str) (i : nat) : io str :=
  t <- getitem p i ;;
  if negb (str_eqb t (lit "(none)")) then getitem p i else Ok [].

(** The body of the [try] inside the loop, up to the dict that is
    appended. *)
Definition parse_peer (rt : runtime) (now : Z) (l : str) : io peer :=
  let p := split_on TAB l in
  pk <- getitem p 0 ;;
  e <- none_field p 2 ;;
  a <- none_field p 3 ;;
  hs <- num_field rt p 4 ;;
  rx <- num_field rt p 5 ;;
  tx <- num_field rt p 6 ;;
  keep <- num_field rt p 7 ;;
  Ok {| peer_key := pk; endpoint := e; allowed_ips := a;
        latest_handshake := hs;
        handshake_age_sec := if (hs =? 0)%Z then None else Some (now - hs)%Z;
        transfer_rx := rx; transfer_tx := tx;
        persistent_keepalive := if (keep =? 0)%Z then None else Some keep |}.

(** [for l in lines[1:]: try: ... peers.append(...) except: continue]. *)
Fixpoint peers_loop (rt : runtime) (now : Z) (ls : list str)
  (acc : list peer) : list peer :=
  match ls with
  | [] => acc
  | l :: r =>
    match parse_peer rt now l with
    | Ok pr => peers_loop rt now r (acc ++ [pr])
    | Raise => peers_loop rt now r acc
    end
  end.

(** [[l for l in raw.splitlines() if l.strip()]]. *)
Definition dump_lines (raw : str) : list str :=
  filter (fun l => truthy (strip is_space l)) (splitlines raw).

(** [int(parts[2]) if len(parts) > 2 and parts[2].isdigit() else None]. *)
Definition port_field (rt : runtime) (parts : list str) : io (option Z) :=
  c <- (if 2 <? length parts
        then p <- getitem parts 2 ;; Ok (py_isdigit rt p)
        else Ok false) ;;
  if c then p <- getitem parts 2 ;; v <- py_int rt p ;; Ok (Some v)
  else Ok None.

Definition parse_iface (rt : runtime) (l0 : str) : io iface_info :=
  let parts := split_on TAB l0 in
  pk <- (if 1 <? length parts then getitem parts 1 else Ok []) ;;
  lp <- port_field rt parts ;;
  Ok {| public_key := pk; listen_port := lp |}.

(** [vpn_status]; [name] is [WIREGUARD_IFACE].  No [try] surrounds the
    body, so [Raise] leaves the function. *)
Definition vpn_status (rt : runtime) (name : str) (h : host) : io status :=
  let raw := wg_dump h in
  if negb (truthy raw) then
    if has_systemctl h then
      Ok {| type := lit "wireguard"; iface := Some name;
            running := str_eqb (unit_state h) (lit "active");
            interface := None; peers := Some [] |}
    else
      Ok {| type := lit "unknown"; iface := None; running := false;
            interface := None; peers := None |}
  else
    match dump_lines raw with
    | [] =>
      Ok {| type := lit "wireguard"; iface := Some name; running := false;
            interface := None; peers := Some [] |}
    | l0 :: rest =>
      info <- parse_iface rt l0 ;;
      Ok {| type := lit "wireguard"; iface := Some name; running := true;
            interface := Some info;
            peers := Some (peers_loop rt (now h) rest []) |}
    end.

(** *** Notions the statements about the dump parser use *)

(** A line with fewer than the eight fields the loop body reads. *)
Definition too_short (l : str) : bool := length (split_on TAB l) <? 8.

(** The value of a field of the interface line: no tab, no line
    boundary, not blank. *)
Definition field_value (k : str) : Prop :=
  forallb (fun c => negb (c =? TAB)%N && negb (is_linebreak c)) k = true /\
  existsb (fun c => negb (is_space c)) k = true.

(** What follows the first field of the first line: nothing, a tab and
    the other fields, or the end of the line. *)
Definition after_field (rest : str) : Prop :=
  match rest with
  | [] => True
  | c :: _ => c = TAB \/ is_linebreak c = true
  end.

Definition with_dump (h : host) (raw : str) : host :=
  {| wg_dump := raw; has_systemctl := has_systemctl h;
     unit_state := unit_state h; now := now h |}.

End Vpn.

(** * Sample inputs *)

Module Samples.
Import Tail.

Definition digit (i : nat) : byte :=
  match Byte.of_nat (48 + i mod 10) with
  | Some b => b
  | None => x30
  end.

(** The line [L<i>], [i] in three decimal digits. *)
Definition sample_line (i : nat) : bytes :=
  [x4c; digit (i / 100); digit (i / 10); digit i].

(** A log of [k] newline-terminated lines. *)
Definition sample_log (k : nat) : bytes := unlines (map sample_line (seq 0 k)).

Definition one_file (content : bytes) : filesystem :=
  fun _ => Ok (file_of content).

(** A file whose reads fail below offset [bad]. *)
Definition faulty_file (content : bytes) (bad : nat) : file :=
  {| f_size := Ok (length content);
     f_seek := fun _ => Ok tt;
     f_read := fun pos k =>
       if pos <? bad then Raise else Ok (firstn k (skipn pos content)) |}.

Import Bedrock.

(** A network on which everything succeeds and [data] comes back. *)
Definition good_net (data : bytes) : net :=
  {| sock_open := Ok tt; sock_settimeout := Ok tt;
     time_ms := 1700000000123; rand_next := 0x1122334455667788;
     sock_sendto := fun _ _ _ => Ok tt;
     sock_recvfrom := Ok data; sock_close := Ok tt |}.

(** A network on which no reply arrives in time. *)
Definition silent_net : net :=
  {| sock_open := Ok tt; sock_settimeout := Ok tt;
     time_ms := 1700000000123; rand_next := 7;
     sock_sendto := fun _ _ _ => Ok tt;
     sock_recvfrom := Raise; sock_close := Ok tt |}.

(** The head of a pong: 0x1C, the echoed time, the server identifier. *)
Definition pong_head : bytes :=
  [x1c] ++ be_bytes 8 1700000000123 ++ be_bytes 8 99.

(** [MCPE;Dedicated Server;527;1.19.1;3;10], two length bytes before it. *)
Definition pong_text : bytes :=
  [x00; x24; x4d; x43; x50; x45; x3b;
   x44; x65; x64; x69; x63; x61; x74; x65; x64; x20;
   x53; x65; x72; x76; x65; x72; x3b;
   x35; x32; x37; x3b; x31; x2e; x31; x39; x2e; x31; x3b; x33; x3b;
   x31; x30].

Definition pong_good : bytes := pong_head ++ magic ++ pong_text.

(** The magic with its last byte corrupted. *)
Definition pong_bad_magic : bytes :=
  pong_head ++ firstn 15 magic ++ [x79] ++ pong_text.

(** A server text with an invalid byte: [M;A<FF>B] after the two length
    bytes. *)
Definition pong_invalid : bytes :=
  pong_head ++ magic ++ [x00; x05; x4d; x3b; x41; xff; x42].

Definition localhost : str := lit "127.0.0.1".

Import Vpn.

Definition tabbed (fields : list str) : str := join TAB fields.

Definition text_lines_of (ls : list str) : str := join LF ls.

Definition iface_line (private_key : str) : str :=
  tabbed [private_key; lit "pubB64"; lit "51820"; lit "off"].

Definition peer_line (key endpoint_tok : str) : str :=
  tabbed [key; lit "(none)"; endpoint_tok; lit "10.0.0.2/32";
          lit "1700000100"; lit "100"; lit "200"; lit "25"].

(** A peer line cut after its second field. *)
Definition cut_line : str := tabbed [lit "peerB"; lit "(none)"].

(** An interface line and three peer lines, the second one cut. *)
Definition dump3 (private_key : str) : str :=
  text_lines_of [iface_line private_key;
                 peer_line (lit "peerA") (lit "192.0.2.7:51820");
                 cut_line;
                 peer_line (lit "peerC") (lit "(none)")].

(** The same dump after the private key. *)
Definition dump3_rest : str := skipn 7 (dump3 (lit "privB64")).

Definition host_with (raw : str) (t : Z) : host :=
  {| wg_dump := raw; has_systemctl := true; unit_state := lit "active";
     now := t |}.

End Samples.

(** * Numeric tokens, as the specification reads them

    The notions of the statements about the numeric fields of the dump:
    which tokens are numbers, and the integer a number denotes, read
    off the digits by position.  They are stated on the characters and
    on the digit table of the interpreter, not on [str.isdigit] and
    [int]. *)

Module Digits.
Import Vpn.

(** The decimal value of a character: an ASCII digit, or a non-ASCII
    decimal digit of the table. *)
Definition digit_value (rt : runtime) (c : N) : option Z :=
  if ((48 <=? c) && (c <=? 57))%N then Some (Z.of_N c - 48)%Z
  else if (c <? 128)%N then None
  else option_map Z.of_N (decimal_of rt c).

(** A character that is a digit of no kind. *)
Definition no_digit (rt : runtime) (c : N) : bool :=
  match digit_value rt c with
  | Some _ => false
  | None => (c <? 128)%N || negb (digit_other rt c)
  end.

(** A token that is a number: not empty, decimal digits only. *)
Definition decimal_token (rt : runtime) (t : str) : bool :=
  truthy t &&
  forallb (fun c => match digit_value rt c with Some _ => true | None => false end) t.

(** A token that is no number: empty, or with a character that is no
    digit. *)
Definition not_numeric (rt : runtime) (t : str) : bool :=
  negb (truthy t) || existsb (no_digit rt) t.

(** The integer a string of decimal digits denotes: each digit times
    the power of ten of its position. *)
Fixpoint dec_value (rt : runtime) (t : str) : Z :=
  match t with
  | [] => 0
  | c :: r =>
    (match digit_value rt c with Some d => d | None => 0 end
     * 10 ^ Z.of_nat (length r) + dec_value rt r)%Z
  end.

(** The value of a numeric field: the integer of a number, 0 for any
    other token. *)
Definition token_value (rt : runtime) (t : str) : Z :=
  if decimal_token rt t then dec_value rt t else 0%Z.

(** A token that is a number [int] does not refuse, or no number.  What
    is left are the tokens [str.isdigit] accepts and [int] rejects. *)
Definition plain_token (rt : runtime) (t : str) : Prop :=
  (decimal_token rt t = true /\ int_refuses rt t = false) \/
  not_numeric rt t = true.

(** ["(none)"] stands for no value. *)
Definition none_value (t : str) : str :=
  if list_eq_dec N.eq_dec t (lit "(none)") then [] else t.

(** The record of a peer line with the fields [p0], [p2] ... [p7]. *)
Definition peer_of (rt : runtime) (now : Z) (p0 p2 p3 p4 p5 p6 p7 : str)
  : peer :=
  {| peer_key := p0;
     endpoint := none_value p2;
     allowed_ips := none_value p3;
     latest_handshake := token_value rt p4;
     handshake_age_sec :=
       if (0 <? token_value rt p4)%Z then Some (now - token_value rt p4)%Z
       else None;
     transfer_rx := token_value rt p5;
     transfer_tx := token_value rt p6;
     persistent_keepalive :=
       if (token_value rt p7 =? 0)%Z then None
       else Some (token_value rt p7) |}.

(** The listen port of an interface line whose third field is [tok]
    ([None]: the line has no third field). *)
Definition port_value (rt : runtime) (tok : option str) : option Z :=
  match tok with
  | Some t => if decimal_token rt t then Some (dec_value rt t) else None
  | None => None
  end.

Definition plain_port (rt : runtime) (tok : option str) : Prop :=
  match tok with
  | Some t => plain_token rt t
  | None => True
  end.

(** The interface record of a first line with the fields [parts]. *)
Definition iface_of (rt : runtime) (parts : list str) : iface_info :=
  {| public_key := nth 1 parts [];
     listen_port := port_value rt (nth_error parts 2) |}.

End Digits.

(** * The callers: [try_cmd], [minecraft_info], the log endpoints *)

Module Service.

(** [try_cmd]: the stripped output of the command, the empty string if
    [subprocess.check_output] raises.  [run] is the outcome of that
    call. *)
Definition try_cmd (run : io str) : str :=
  try_except (out <- run ;; Ok (strip is_space out)) [].

(** The host as [vpn_status] meets it through [try_cmd]. *)
Definition host_of (dump_cmd systemctl_cmd : io str) (which : bool) (t : Z)
  : Vpn.host :=
  {| Vpn.wg_dump := try_cmd dump_cmd;
     Vpn.has_systemctl := which;
     Vpn.unit_state := try_cmd systemctl_cmd;
     Vpn.now := t |}.

(** The outcome of [subprocess.check_output] in [minecraft_info]: the
    output, [CalledProcessError], or another exception (the command is
    not there, say). *)
Inductive proc_outcome :=
| Output (out : str)
| CalledProcessError
| OtherError.

Record minecraft := { container : str; server : Bedrock.ping_result }.

(** [d.setdefault(key, v)] on one key of the dict. *)
Definition setdefault {A} (cur : option A) (v : A) : option A :=
  match cur with
  | Some a => Some a
  | None => Some v
  end.

(** [minecraft_info]; only [CalledProcessError] is caught. *)
Definition minecraft_info (rt : runtime) (docker : proc_outcome)
  (env : Bedrock.net) (host : str) (port : Z) : io minecraft :=
  c <- match docker with
       | Output out => Ok (strip is_space out)
       | CalledProcessError => Ok (lit "unknown")
       | OtherError => Raise
       end ;;
  let mc := Bedrock.bedrock_status rt env host port in
  let mc :=
    if negb (Bedrock.online mc) && str_eqb c (lit "running") then
      {| Bedrock.online := true;
         Bedrock.motd := setdefault (Bedrock.motd mc) (lit "Minecraft Bedrock");
         Bedrock.version := setdefault (Bedrock.version mc) (lit "Bedrock");
         Bedrock.players := setdefault (Bedrock.players mc) [];
         Bedrock.player_count := setdefault (Bedrock.player_count mc) 0%Z;
         Bedrock.max_players := setdefault (Bedrock.max_players mc) 0%Z |}
    else mc in
  Ok {| container := c; server := mc |}.

(** ** The log endpoints

    The [json] module is a parameter: [loads] is [json.loads],
    [lookup obj key] is the entry that [obj.get(key)] looks for
    ([Raise]: [obj] has no [get], it is not a dict), [jtruthy] the truth
    value, [jnone] is [None], [jstr] a [str] and [jobj] a dict as
    values. *)

Section Json.

Variable json : Type.
Variable loads : str -> io json.
Variable lookup : json -> str -> io (option json).
Variable jtruthy : json -> bool.
Variable jnone : json.
Variable jstr : str -> json.
Variable jobj : list (str * json) -> json.

(** [obj.get(key)] and [obj.get(key, d)]. *)
Definition get (obj : json) (key : str) : io json :=
  v <- lookup obj key ;;
  Ok (match v with Some x => x | None => jnone end).

Definition get_or (obj : json) (key : str) (d : json) : io json :=
  v <- lookup obj key ;;
  Ok (match v with Some x => x | None => d end).

(** [a or b]: [b] is evaluated only if [a] is not true. *)
Definition por (a : io json) (b : io json) : io json :=
  x <- a ;; if jtruthy x then Ok x else b.

Record event := { time : json; level : json; app : json; message : json }.

(** The body of the [try] in [owncloud_recent]. *)
Definition json_event (L : str) : io event :=
  obj <- loads L ;;
  t <- por (get obj (lit "time"))
           (por (get obj (lit "datetime")) (Ok (jstr []))) ;;
  lv <- get_or obj (lit "level") (jstr []) ;;
  a <- get_or obj (lit "app") (jstr []) ;;
  m <- por (get obj (lit "message"))
           (por (get obj (lit "msg"))
                (get_or obj (lit "reqId") (jstr []))) ;;
  Ok {| time := t; level := lv; app := a; message := m |}.

(** The fallback event: the raw line, its last 200 characters. *)
Definition raw_event (L : str) : event :=
  {| time := jstr []; level := jstr []; app := jstr (lit "raw");
     message := jstr (last_slice 200 L) |}.

(** [for L in lines: try: events.append(...) except: events.append(...)]. *)
Fixpoint events_loop (lines : list str) (events : list event) : list event :=
  match lines with
  | [] => events
  | L :: r => events_loop r (events ++ [try_except (json_event L) (raw_event L)])
  end.

(** [owncloud_recent]: [path] is [OWNCLOUD_LOG], [n] is [MAX_LOG_LINES].
    [None] as for [tail_file]. *)
Definition owncloud_recent (fs : Tail.filesystem) (path : str) (n : Z)
  : option (list event) :=
  option_map (fun lines => last_slice 5 (events_loop lines []))
             (Tail.tail_file fs path n).

(** [for L in lines: try: history.append(json.loads(L))
    except: history.append({"raw": L})]. *)
Fixpoint history_loop (lines : list str) (history : list json) : list json :=
  match lines with
  | [] => history
  | L :: r =>
    history_loop r
      (history ++ [try_except (loads L) (jobj [(lit "raw", jstr L)])])
  end.

Record backups := { latest : json; recent : list json }.

(** [backups_summary]: [summary] is the outcome of opening
    [BACKUP_SUMMARY] and [json.load] on it; [path] is [BACKUP_HISTORY].
    [tail_file] does not raise, so the [except: pass] around the loop
    is never entered. *)
Definition backups_summary (summary : io json) (fs : Tail.filesystem)
  (path : str) (n : Z) : option backups :=
  let latest := try_except summary (jobj [(lit "status", jstr (lit "unknown"))]) in
  option_map
    (fun lines =>
       {| latest := latest; recent := last_slice 5 (history_loop lines []) |})
    (Tail.tail_file fs path n).

End Json.

(** *** Notions the statements use *)

(** A line without line boundary. *)
Definition one_line (l : str) : Prop :=
  forallb (fun c => negb (is_linebreak c)) l = true.

(** The invariant of a peer record at time [now]. *)
Definition peer_ok (now : Z) (pr : Vpn.peer) : Prop :=
  (0 <= Vpn.latest_handshake pr)%Z /\
  (0 <= Vpn.transfer_rx pr)%Z /\
  (0 <= Vpn.transfer_tx pr)%Z /\
  (forall k, Vpn.persistent_keepalive pr = Some k -> (0 < k)%Z) /\
  (Vpn.handshake_age_sec pr = None <-> Vpn.latest_handshake pr = 0%Z) /\
  (forall a, Vpn.handshake_age_sec pr = Some a ->
             a = (now - Vpn.latest_handshake pr)%Z).

(** The bytes of an ASCII text. *)
Definition ascii_bytes (s : str) : bytes :=
  map (fun c => match Byte.of_N c with Some b => b | None => x00 end) s.

(** A field of a server text: ASCII, no NUL, no [;]. *)
Definition plain_field (f : str) : Prop :=
  forallb (fun c => (0 <? c)%N && (c <? 128)%N && negb (c =? SEMI)%N) f = true.

End Service.

(** * More sample inputs *)

Module Samples2.
Import Service.

(** A toy [json] module: a line that starts with an opening brace is
    an object with that line as its message, [null] is [None], anything
    else is refused. *)
Inductive toy_json :=
| TNone
| TStr (s : str)
| TObj (kv : list (str * str)).

Definition toy_loads (L : str) : io toy_json :=
  match L with
  | 123%N :: _ => Ok (TObj [(lit "message", L)])
  | [110; 117; 108; 108]%N => Ok TNone
  | _ => Raise
  end.

Fixpoint assoc (kv : list (str * str)) (key : str) : option toy_json :=
  match kv with
  | [] => None
  | (k, v) :: r => if str_eqb k key then Some (TStr v) else assoc r key
  end.

Definition toy_lookup (obj : toy_json) (key : str) : io (option toy_json) :=
  match obj with
  | TObj kv => Ok (assoc kv key)
  | _ => Raise
  end.

Definition toy_obj (kv : list (str * toy_json)) : toy_json :=
  TObj (map (fun p => (fst p, match snd p with TStr s => s | _ => [] end)) kv).

Definition toy_truthy (v : toy_json) : bool :=
  match v with
  | TNone => false
  | TStr s => truthy s
  | TObj kv => match kv with [] => false | _ => true end
  end.

(** Seven log lines: objects, a refused line, a [null]. *)
Definition log_lines : list bytes :=
  [ [x7b; x61; x7d]; [x6f; x6f; x70; x73]; [x7b; x62; x7d];
    [x6e; x75; x6c; x6c]; [x7b; x63; x7d]; [x7b; x64; x7d];
    [x62; x61; x64] ].

Definition log_file : Tail.filesystem :=
  fun _ => Ok (Tail.file_of (Tail.unlines log_lines)).

End Samples2.

(** * Facts about the built-ins *)

(** ** Decoding *)

Lemma utf8_scan_cons b1 r1 :
  utf8_scan (b1 :: r1) =
    if (bv b1 <? 0x80)%N then Some (bv b1) :: utf8_scan r1
    else if (bv b1 <? 0xC2)%N then None :: utf8_scan r1
    else if (bv b1 <? 0xE0)%N then
      match r1 with
      | [] => [None]
      | b2 :: r2 =>
        if is_cont b2 then Some (cp2 b1 b2) :: utf8_scan r2
        else None :: utf8_scan r1
      end
    else if (bv b1 <? 0xF0)%N then
      match r1 with
      | [] => [None]
      | b2 :: r2 =>
        if second_ok3 b1 b2 then
          match r2 with
          | [] => [None]
          | b3 :: r3 =>
            if is_cont b3 then Some (cp3 b1 b2 b3) :: utf8_scan r3
            else None :: utf8_scan r2
          end
        else None :: utf8_scan r1
      end
    else if (bv b1 <? 0xF5)%N then
      match r1 with
      | [] => [None]
      | b2 :: r2 =>
        if second_ok4 b1 b2 then
          match r2 with
          | [] => [None]
          | b3 :: r3 =>
            if is_cont b3 then
              match r3 with
              | [] => [None]
              | b4 :: r4 =>
                if is_cont b4 then Some (cp4 b1 b2 b3 b4) :: utf8_scan r4
                else None :: utf8_scan r3
              end
            else None :: utf8_scan r2
          end
        else None :: utf8_scan r1
      end
    else None :: utf8_scan r1.
Proof. reflexivity. Qed.

Lemma utf8_scan_lf_head b : utf8_scan (x0a :: b) = Some LF :: utf8_scan b.
Proof. reflexivity. Qed.

Lemma is_cont_lf : is_cont x0a = false.
Proof. reflexivity. Qed.

Lemma second_ok3_lf b1 : second_ok3 b1 x0a = false.
Proof. reflexivity. Qed.

Lemma second_ok4_lf b1 : second_ok4 b1 x0a = false.
Proof. reflexivity. Qed.

Ltac decode_case :=
  repeat match goal with
  | |- context [if ?c then _ else _] => destruct c eqn:?
  end.

(** A newline byte is never part of a sequence: scanning starts afresh
    after it. *)
Lemma utf8_scan_lf_len :
  forall n a b, length a <= n ->
  utf8_scan (a ++ x0a :: b) = utf8_scan a ++ Some LF :: utf8_scan b.
Proof.
  induction n as [|n IH]; intros a b Hn.
  - destruct a; [reflexivity | simpl in Hn; lia].
  - destruct a as [|b1 r1]; [reflexivity|].
    simpl in Hn.
    assert (H1 : forall r, length r <= n ->
      utf8_scan (r ++ x0a :: b) = utf8_scan r ++ Some LF :: utf8_scan b)
      by (intros; apply IH; lia).
    rewrite <- app_comm_cons, 2 (utf8_scan_cons b1).
    destruct r1 as [|b2 r2];
      [|destruct r2 as [|b3 r3];
         [|destruct r3 as [|b4 r4]]];
      simpl length in *; cbn [app];
      rewrite ?is_cont_lf, ?second_ok3_lf, ?second_ok4_lf;
      decode_case;
      repeat match goal with
      | |- context [utf8_scan (?x :: x0a :: b)] =>
        change (x :: x0a :: b) with ([x] ++ x0a :: b)
      | |- context [utf8_scan (?x :: ?y :: x0a :: b)] =>
        change (x :: y :: x0a :: b) with ([x; y] ++ x0a :: b)
      | |- context [utf8_scan (?x :: ?y :: ?z :: x0a :: b)] =>
        change (x :: y :: z :: x0a :: b) with ([x; y; z] ++ x0a :: b)
      end;
      rewrite ?app_comm_cons, ?H1 by (simpl; lia);
      rewrite ?utf8_scan_lf_head;
      try reflexivity.
Qed.

Lemma utf8_decode_lf h a b :
  utf8_decode h (a ++ x0a :: b) = utf8_decode h a ++ LF :: utf8_decode h b.
Proof.
  unfold utf8_decode.
  rewrite (@utf8_scan_lf_len (length a)) by lia.
  rewrite flat_map_app. reflexivity.
Qed.

(** With ["replace"] every error range becomes one U+FFFD; with
    ["ignore"] it leaves no trace. *)
Lemma utf8_decode_replace bs :
  utf8_decode Replace bs =
    map (fun t => match t with Some c => c | None => REPLACEMENT end)
        (utf8_scan bs).
Proof.
  unfold utf8_decode. induction (utf8_scan bs) as [|[c|] ts IH];
    simpl; congruence.
Qed.

Lemma utf8_decode_ignore bs :
  utf8_decode Ignore bs =
    flat_map (fun t => match t with Some c => [c] | None => [] end)
             (utf8_scan bs).
Proof. reflexivity. Qed.

(** ** Lines *)

Lemma splitlines_cons c r :
  splitlines (c :: r) =
    if is_linebreak c then
      if (c =? CR)%N then
        match r with
        | c' :: r' => if (c' =? LF)%N then [] :: splitlines r'
                      else [] :: splitlines r
        | [] => [[]]
        end
      else [] :: splitlines r
    else
      match splitlines r with
      | [] => [[c]]
      | l :: ls => (c :: l) :: ls
      end.
Proof. reflexivity. Qed.

Lemma splitlines_nonempty c r : splitlines (c :: r) <> [].
Proof.
  rewrite splitlines_cons.
  destruct (is_linebreak c).
  - destruct (c =? CR)%N; [destruct r as [|c' r']; [|destruct (c' =? LF)%N]|];
      discriminate.
  - destruct (splitlines r); discriminate.
Qed.

Lemma splitlines_lf_head rest : splitlines (LF :: rest) = [] :: splitlines rest.
Proof. reflexivity. Qed.

Lemma splitlines_lf_len :
  forall n p rest, length p <= n ->
  splitlines (p ++ LF :: rest) = splitlines (p ++ [LF]) ++ splitlines rest.
Proof.
  induction n as [|n IH]; intros p rest Hn.
  - destruct p; [reflexivity | simpl in Hn; lia].
  - destruct p as [|c r]; [reflexivity|].
    simpl in Hn. rewrite <- !app_comm_cons, !splitlines_cons.
    destruct (is_linebreak c).
    + destruct (c =? CR)%N.
      * destruct r as [|c' r']; cbn [app].
        -- reflexivity.
        -- simpl in Hn. destruct (c' =? LF)%N.
           ++ rewrite (IH r') by lia. reflexivity.
           ++ rewrite !app_comm_cons, (IH (c' :: r')) by (simpl; lia).
              reflexivity.
      * rewrite (IH r) by lia. reflexivity.
    + rewrite (IH r) by lia.
      destruct (splitlines (r ++ [LF])) eqn:E.
      * destruct r; exfalso; eapply splitlines_nonempty; exact E.
      * reflexivity.
Qed.

Lemma splitlines_lf p rest :
  splitlines (p ++ LF :: rest) = splitlines (p ++ [LF]) ++ splitlines rest.
Proof. apply (splitlines_lf_len (n := length p)); lia. Qed.

Lemma splitlines_snoc_lf_length p : 1 <= length (splitlines (p ++ [LF])).
Proof.
  destruct (splitlines (p ++ [LF])) eqn:E; [|simpl; lia].
  destruct p; exfalso; eapply splitlines_nonempty; exact E.
Qed.

(** A text without line boundary, closed by LF, is one line. *)
Lemma splitlines_plain s rest :
  forallb (fun c => negb (is_linebreak c)) s = true ->
  splitlines (s ++ LF :: rest) = s :: splitlines rest.
Proof.
  induction s as [|c r IH]; intros H; [reflexivity|].
  simpl in H. apply andb_prop in H as [Hc Hr].
  rewrite <- app_comm_cons, splitlines_cons.
  apply negb_true_iff in Hc. rewrite Hc, (IH Hr). reflexivity.
Qed.

(** A text without line boundary, a prefix of its line. *)
Lemma splitlines_prefix s t :
  forallb (fun c => negb (is_linebreak c)) s = true ->
  s <> [] ->
  splitlines (s ++ t) =
    match splitlines t with
    | [] => [s]
    | l :: ls => (s ++ l) :: ls
    end.
Proof.
  induction s as [|c r IH]; intros H Hne; [congruence|].
  simpl in H. apply andb_prop in H as [Hc Hr].
  apply negb_true_iff in Hc.
  rewrite <- app_comm_cons, splitlines_cons, Hc.
  destruct r as [|c' r'].
  - cbn [app]. destruct (splitlines t); reflexivity.
  - rewrite (IH Hr) by discriminate.
    destruct (splitlines t); reflexivity.
Qed.

(** ** Stripping and splitting *)

Lemma lstrip_suffix p s : exists pre, s = pre ++ lstrip p s.
Proof.
  induction s as [|c r [pre IH]]; [exists []; reflexivity|].
  simpl. destruct (p c).
  - exists (c :: pre). simpl. congruence.
  - exists []. reflexivity.
Qed.

Lemma lstrip_head p s c r : lstrip p s = c :: r -> p c = false.
Proof.
  induction s as [|d s IH]; simpl; [discriminate|].
  destruct (p d) eqn:E; [exact IH|]. intros [= <- _]. exact E.
Qed.

Lemma rstrip_prefix p s : exists post, s = rstrip p s ++ post.
Proof.
  unfold rstrip. destruct (lstrip_suffix p (rev s)) as [pre H].
  exists (rev pre). rewrite <- rev_app_distr, <- H. now rewrite rev_involutive.
Qed.

Lemma rstrip_last p s r c : rstrip p s = r ++ [c] -> p c = false.
Proof.
  unfold rstrip. intros H.
  apply (f_equal (@rev N)) in H.
  rewrite rev_involutive, rev_app_distr in H. simpl in H.
  eapply lstrip_head; eauto.
Qed.

(** [strip] leaves no stripped character at either end. *)
Lemma strip_ends p s :
  (forall c r, strip p s = c :: r -> p c = false) /\
  (forall r c, strip p s = r ++ [c] -> p c = false).
Proof.
  unfold strip. split.
  - intros c r H.
    destruct (rstrip_prefix p (lstrip p s)) as [post Hp].
    rewrite H in Hp. eapply lstrip_head; eauto.
  - intros r c H. eapply rstrip_last; eauto.
Qed.

Lemma split_on_cons sep c r :
  split_on sep (c :: r) =
    if (c =? sep)%N then [] :: split_on sep r
    else match split_on sep r with
         | [] => [[c]]
         | f :: fs => (c :: f) :: fs
         end.
Proof. reflexivity. Qed.

Lemma split_on_nonempty sep s : split_on sep s <> [].
Proof.
  destruct s as [|c r]; [discriminate|].
  rewrite split_on_cons.
  destruct (c =? sep)%N; [discriminate|].
  destruct (split_on sep r); discriminate.
Qed.

(** Joining the fields gives the text back. *)
Lemma join_split_on sep s : join sep (split_on sep s) = s.
Proof.
  induction s as [|c r IH]; [reflexivity|].
  rewrite split_on_cons.
  destruct (c =? sep)%N eqn:E.
  - apply N.eqb_eq in E. subst c.
    destruct (split_on sep r) as [|f fs] eqn:Er.
    + now apply split_on_nonempty in Er.
    + cbn [join app]. simpl in IH. now rewrite IH.
  - destruct (split_on sep r) as [|f fs] eqn:Er.
    + now apply split_on_nonempty in Er.
    + destruct fs; simpl in *; congruence.
Qed.

(** No field holds the separator. *)
Lemma split_on_fields sep s :
  Forall (fun f => ~ In sep f) (split_on sep s).
Proof.
  induction s as [|c r IH]; [repeat constructor; auto|].
  rewrite split_on_cons.
  destruct (c =? sep)%N eqn:E.
  - constructor; auto.
  - apply N.eqb_neq in E.
    destruct (split_on sep r) as [|f fs].
    + constructor; [|constructor]. intros [H|[]]. congruence.
    + inversion IH; subst. constructor; auto.
      intros [H|H]; [congruence | contradiction].
Qed.

(** A text without separator, before a separator or the end, is the
    first field. *)
Lemma split_on_prefix sep k rest :
  forallb (fun c => negb (c =? sep)%N) k = true ->
  split_on sep (k ++ sep :: rest) = k :: split_on sep rest.
Proof.
  induction k as [|c k IH]; intros H.
  - cbn [app]. rewrite split_on_cons, N.eqb_refl. reflexivity.
  - simpl in H. apply andb_prop in H as [Hc Hk].
    apply negb_true_iff in Hc.
    rewrite <- app_comm_cons, split_on_cons, Hc, (IH Hk). reflexivity.
Qed.

Lemma split_on_whole sep k :
  forallb (fun c => negb (c =? sep)%N) k = true ->
  split_on sep k = [k].
Proof.
  induction k as [|c k IH]; intros H; [reflexivity|].
  simpl in H. apply andb_prop in H as [Hc Hk].
  apply negb_true_iff in Hc.
  rewrite split_on_cons, Hc, (IH Hk). reflexivity.
Qed.

(** * Facts about [tail_file] *)

Module TailFacts.
Import Tail.

Lemma count_nl_split d :
  0 < count_nl d ->
  exists p rest, d = p ++ x0a :: rest /\ count_nl d = S (count_nl rest).
Proof.
  induction d as [|b r IH]; simpl; [lia|].
  destruct (Byte.eqb b x0a) eqn:E; intros H.
  - apply Byte.byte_dec_bl in E. subst b. exists [], r. split; reflexivity.
  - destruct (IH H) as (p & rest & -> & Hc).
    exists (b :: p), rest. split; [reflexivity | exact Hc].
Qed.

Lemma text_lines_lf p rest :
  text_lines (p ++ x0a :: rest) = text_lines (p ++ [x0a]) ++ text_lines rest.
Proof.
  unfold text_lines.
  rewrite !utf8_decode_lf. simpl utf8_decode. apply splitlines_lf.
Qed.

(** Every newline byte ends a line of the text. *)
Lemma count_nl_le_lines :
  forall k d, count_nl d = k -> k <= length (text_lines d).
Proof.
  induction k as [|k IH]; intros d Hk; [lia|].
  destruct (@count_nl_split d) as (p & rest & -> & Hc); [lia|].
  rewrite text_lines_lf, length_app.
  assert (k <= length (text_lines rest)) by (apply IH; lia).
  assert (1 <= length (text_lines (p ++ [x0a]))).
  { unfold text_lines. rewrite (utf8_decode_lf Replace p []).
    apply splitlines_snoc_lf_length. }
  lia.
Qed.

(** For [n >= 1], [l[-n:]] is the last [min n (len l)] elements. *)
Lemma last_slice_last_lines {A} (n : Z) (l : list A) :
  (1 <= n)%Z ->
  last_slice n l = last_lines (Nat.min (Z.to_nat n) (length l)) l.
Proof.
  intros Hn. unfold last_slice, last_lines.
  destruct (- n <? 0)%Z eqn:E; [|apply Z.ltb_ge in E; lia].
  f_equal. lia.
Qed.

Lemma last_lines_length {A} k (l : list A) :
  k <= length l -> length (last_lines k l) = k.
Proof. intros H. unfold last_lines. rewrite length_skipn. lia. Qed.

Lemma last_lines_app {A} k (x y : list A) :
  k <= length y -> last_lines k (x ++ y) = last_lines k y.
Proof.
  intros H. unfold last_lines.
  rewrite length_app, skipn_app.
  replace (length x + length y - k - length x) with (length y - k) by lia.
  rewrite skipn_all2 by lia. reflexivity.
Qed.

Lemma last_lines_map {A B} (g : A -> B) k l :
  last_lines k (map g l) = map g (last_lines k l).
Proof. unfold last_lines. rewrite length_map, skipn_map. reflexivity. Qed.

(** ** The loop *)

Lemma scan_step_continue f block n st st' :
  scan_step f block n st = Continue st' ->
  0 < size st /\ size st' = size st - Nat.min block (size st).
Proof.
  unfold scan_step, scan_guard.
  destruct (0 <? size st) eqn:E; simpl; [|discriminate].
  apply Nat.ltb_lt in E.
  destruct (_ <=? _)%Z; [|discriminate].
  destruct (f_seek f _ ;;; f_read f _ _); [|discriminate].
  intros [= <-]. simpl. split; [exact E | reflexivity].
Qed.

Lemma scan_step_exit f block n st :
  scan_step f block n st = Exit ->
  size st = 0 \/ (n < Z.of_nat (count_nl (data st)))%Z.
Proof.
  unfold scan_step, scan_guard.
  destruct (0 <? size st) eqn:E; simpl.
  - destruct (_ <=? _)%Z eqn:E2.
    + destruct (f_seek f _ ;;; f_read f _ _); discriminate.
    + intros _. right. apply Z.leb_gt in E2. exact E2.
  - intros _. left. apply Nat.ltb_ge in E. lia.
Qed.

(** The loop is over after [fuel] executions of its body as soon as
    [block * fuel] covers the bytes that remain. *)
Lemma scan_finishes f block n :
  1 <= block ->
  forall fuel st, size st <= block * fuel ->
  exists out, scan fuel f block n st = Some out /\
    match out with
    | Ok st' => size st' = 0 \/ (n < Z.of_nat (count_nl (data st')))%Z
    | Raise => True
    end.
Proof.
  intros Hb. induction fuel as [|fuel IH]; intros st Hs; simpl.
  - destruct (scan_step f block n st) eqn:E.
    + apply scan_step_continue in E. lia.
    + exists (Ok st). split; [reflexivity | eapply scan_step_exit; eauto].
    + exists Raise. split; [reflexivity | exact I].
  - destruct (scan_step f block n st) as [st'| |] eqn:E.
    + apply scan_step_continue in E as [Hpos Hsz].
      apply IH. rewrite Hsz. lia.
    + exists (Ok st). split; [reflexivity | eapply scan_step_exit; eauto].
    + exists Raise. split; [reflexivity | exact I].
Qed.

Lemma scan_faults_raise f block n :
  1 <= block ->
  forall st, scan_faults f block n st ->
  forall fuel, size st <= fuel -> scan fuel f block n st = Some Raise.
Proof.
  intros Hb st H. induction H as [st E | st st' E H IH]; intros fuel Hf.
  - destruct fuel; simpl; rewrite E; reflexivity.
  - apply scan_step_continue in E as E'. destruct E' as [Hpos Hsz].
    destruct fuel as [|fuel]; [lia|].
    simpl. rewrite E. apply IH. lia.
Qed.

(** On a file whose operations succeed the loop keeps [data] equal to
    the bytes from offset [size] on. *)
Lemma scan_file_of content block n :
  1 <= block ->
  forall fuel st,
  size st <= fuel -> size st <= length content ->
  data st = skipn (size st) content ->
  exists st', scan fuel (file_of content) block n st = Some (Ok st') /\
    size st' <= length content /\
    data st' = skipn (size st') content /\
    (size st' = 0 \/ (n < Z.of_nat (count_nl (data st')))%Z).
Proof.
  intros Hb. induction fuel as [|fuel IH]; intros st Hf Hl Hd.
  - simpl. destruct (scan_step _ block n st) as [st'| |] eqn:E.
    + apply scan_step_continue in E. lia.
    + exists st. repeat split; auto. eapply scan_step_exit; eauto.
    + unfold scan_step in E. simpl in E.
      destruct (scan_guard n st); discriminate.
  - simpl. destruct (scan_step _ block n st) as [st'| |] eqn:E.
    + pose proof (scan_step_continue _ _ _ _ E) as [Hpos Hsz].
      apply IH; try lia.
      unfold scan_step in E. simpl in E.
      destruct (scan_guard n st); [|discriminate].
      injection E as <-. simpl in *. rewrite Hd.
      set (step := Nat.min block (size st)).
      replace (skipn (size st) content)
        with (skipn step (skipn (size st - step) content)).
      * apply firstn_skipn.
      * rewrite skipn_skipn. f_equal. subst step. lia.
    + exists st. repeat split; auto. eapply scan_step_exit; eauto.
    + unfold scan_step in E. simpl in E.
      destruct (scan_guard n st); discriminate.
Qed.

Lemma text_lines_unlines ls :
  Forall plain_line ls ->
  text_lines (unlines ls) = map (utf8_decode Replace) ls.
Proof.
  induction 1 as [|l ls Hl _ IH]; [reflexivity|].
  unfold text_lines, unlines in *. cbn [flat_map map].
  rewrite <- app_assoc. cbn [app].
  rewrite utf8_decode_lf, splitlines_plain by exact Hl.
  rewrite IH. reflexivity.
Qed.

Lemma tail_block_result fs path content n block :
  fs path = Ok (file_of content) -> (1 <= n)%Z -> 1 <= block ->
  tail_file_block block fs path n = Some (last_slice n (text_lines content)).
Proof.
  intros Hfs Hn Hb.
  unfold tail_file_block, tail_body. rewrite Hfs. cbn [f_size file_of].
  destruct (@scan_file_of content block n Hb (length content)
              {| size := length content; data := [] |})
    as (st & -> & Hle & Hd & Hex); cbn [size data];
    [lia | lia | now rewrite skipn_all |].
  cbn [option_map try_except]. f_equal.
  destruct Hex as [H0 | Hc].
  - rewrite Hd, H0. reflexivity.
  - rewrite !last_slice_last_lines by exact Hn.
    destruct (@count_nl_split (data st)) as (p & rest & Hp & Hcnt); [lia|].
    assert (Hrest : Z.to_nat n <= length (text_lines rest)).
    { pose proof (@count_nl_le_lines (count_nl rest) rest eq_refl). lia. }
    assert (Hc' : text_lines content =
              text_lines ((firstn (size st) content ++ p) ++ [x0a])
              ++ text_lines rest).
    { rewrite <- text_lines_lf, <- app_assoc, <- Hp, Hd.
      now rewrite firstn_skipn. }
    rewrite Hp, text_lines_lf, Hc'.
    rewrite !length_app, !Nat.min_l by lia.
    rewrite !last_lines_app by exact Hrest. reflexivity.
Qed.

(** C1.  On a readable file [tail_file] returns the last [min n L] lines
    of the file's text, oldest first, whatever block size the backward
    scan uses; on a file of newline-terminated lines these are the last
    [min n L] of those lines (the last 50 of 1000, all of 10). *)
Theorem tail_returns_last_lines fs path content n block :
  fs path = Ok (file_of content) -> (1 <= n)%Z -> 1 <= block ->
  let lines := text_lines content in
  let k := Nat.min (Z.to_nat n) (length lines) in
  tail_file_block block fs path n = Some (last_lines k lines) /\
  length (last_lines k lines) = k /\
  tail_file_block block fs path n = tail_file fs path n /\
  (forall ls, Forall plain_line ls -> content = unlines ls ->
     tail_file fs path n =
       Some (map (utf8_decode Replace)
                 (last_lines (Nat.min (Z.to_nat n) (length ls)) ls))).
Proof.
  intros Hfs Hn Hb lines k.
  assert (H1024 : tail_file fs path n = Some (last_lines k lines)).
  { unfold tail_file. rewrite (@tail_block_result _ _ content) by (auto; lia).
    rewrite last_slice_last_lines by exact Hn. reflexivity. }
  repeat split.
  - rewrite (@tail_block_result _ _ content) by auto.
    rewrite last_slice_last_lines by exact Hn. reflexivity.
  - apply last_lines_length. subst k. lia.
  - rewrite H1024, (@tail_block_result _ _ content) by auto.
    rewrite last_slice_last_lines by exact Hn. reflexivity.
  - intros ls Hls ->. rewrite H1024. subst k lines.
    rewrite text_lines_unlines by exact Hls.
    rewrite length_map, last_lines_map. reflexivity.
Qed.

(** C8.  If the file cannot be opened, or its size cannot be obtained, or
    a seek or read of the scan raises, [tail_file] returns the empty
    list, and so it does on an empty file. *)
Theorem tail_failure_is_empty fs path n :
  tail_fails fs path n -> tail_file fs path n = Some [].
Proof.
  unfold tail_file, tail_file_block, tail_body.
  intros [H | f H1 H2 | f sz H1 H2 H3 | f H1 H2].
  - rewrite H. reflexivity.
  - rewrite H1, H2. reflexivity.
  - rewrite H1, H2.
    rewrite (@scan_faults_raise f 1024 n ltac:(lia) _ H3) by (simpl; lia).
    reflexivity.
  - rewrite H1, H2. cbn. unfold last_slice.
    now rewrite skipn_nil.
Qed.

(** C10.  The backward scan terminates: from any state it is over after
    at most [ceil(size / 1024)] executions of its body, by an exception
    or with [size = 0] or more than [n] newline bytes in [data]; each
    execution reads [min(1024, size) >= 1] bytes and lowers [size] by
    that amount. *)
Theorem scan_terminates f n st :
  exists out,
    scan ((size st + 1023) / 1024) f 1024 n st = Some out /\
    match out with
    | Ok st' => size st' = 0 \/ (n < Z.of_nat (count_nl (data st')))%Z
    | Raise => True
    end /\
    match scan_step f 1024 n st with
    | Continue st' =>
      1 <= Nat.min 1024 (size st) /\
      size st' = size st - Nat.min 1024 (size st) /\
      size st' < size st
    | _ => True
    end.
Proof.
  destruct (@scan_finishes f 1024 n ltac:(lia) ((size st + 1023) / 1024) st)
    as (out & Hs & Hout).
  { pose proof (Nat.div_mod_eq (size st + 1023) 1024).
    pose proof (Nat.mod_upper_bound (size st + 1023) 1024). lia. }
  exists out. repeat split; auto.
  destruct (scan_step f 1024 n st) as [st'| |] eqn:E; auto.
  apply scan_step_continue in E as [Hpos Hsz]. lia.
Qed.

Import Samples.

Lemma plain_lines_checked ls :
  forallb (fun l => forallb (fun c => negb (is_linebreak c))
                            (utf8_decode Replace l)) ls = true ->
  Forall plain_line ls.
Proof.
  intros H. apply Forall_forall. intros l Hl.
  exact (proj1 (forallb_forall _ ls) H l Hl).
Qed.

(** The last 50 of 1000 lines with blocks of 7 bytes and of 1024 bytes,
    and all of 10 lines. *)
Lemma tail_returns_last_lines_witness :
  tail_file (one_file (sample_log 1000)) [] 50
    = Some (map (utf8_decode Replace) (map sample_line (seq 950 50))) /\
  tail_file_block 7 (one_file (sample_log 1000)) [] 50
    = tail_file (one_file (sample_log 1000)) [] 50 /\
  tail_file (one_file (sample_log 10)) [] 50
    = Some (map (utf8_decode Replace) (map sample_line (seq 0 10))).
Proof.
  destruct (@tail_returns_last_lines (one_file (sample_log 1000)) []
              (sample_log 1000) 50 7 eq_refl ltac:(lia) ltac:(lia))
    as (_ & _ & Hblock & Hlines).
  destruct (@tail_returns_last_lines (one_file (sample_log 10)) []
              (sample_log 10) 50 1024 eq_refl ltac:(lia) ltac:(lia))
    as (_ & _ & _ & Hten).
  split; [|split].
  - rewrite (Hlines (map sample_line (seq 0 1000))).
    + vm_compute. reflexivity.
    + apply plain_lines_checked. vm_compute. reflexivity.
    + reflexivity.
  - exact Hblock.
  - rewrite (Hten (map sample_line (seq 0 10))).
    + vm_compute. reflexivity.
    + apply plain_lines_checked. vm_compute. reflexivity.
    + reflexivity.
Defined.

(** A read that fails on the third block: nothing is returned although
    two blocks were read. *)
Lemma tail_failure_is_empty_witness :
  tail_fails (fun _ => Ok (faulty_file (sample_log 1000) 2000)) [] 900 /\
  tail_file (fun _ => Ok (faulty_file (sample_log 1000) 2000)) [] 900 = Some [].
Proof.
  assert (H : tail_fails (fun _ => Ok (faulty_file (sample_log 1000) 2000))
                [] 900).
  { eapply scan_fails; [reflexivity | reflexivity |].
    eapply fault_later; [vm_compute; reflexivity|].
    eapply fault_later; [vm_compute; reflexivity|].
    apply fault_now. vm_compute. reflexivity. }
  split; [exact H | exact (tail_failure_is_empty H)].
Defined.

(** The same file read for 50 lines: the scan stops before the failing
    block. *)
Example tail_before_fault :
  tail_file (fun _ => Ok (faulty_file (sample_log 1000) 2000)) [] 50
    = Some (map (utf8_decode Replace) (map sample_line (seq 950 50))).
Proof. vm_compute. reflexivity. Qed.

(** A file that does not end in a newline, with CR LF and an invalid
    byte. *)
Example tail_ragged :
  tail_file (one_file [x61; x0d; x0a; xff; x62; x0a; x63]) [] 2
    = Some [[REPLACEMENT; 98%N]; [99%N]].
Proof. vm_compute. reflexivity. Qed.

End TailFacts.

(** * Facts about [bedrock_status] *)

Module BedrockFacts.
Import Bedrock.

(** ** [bytes.find] *)

Lemma is_prefix_iff pat :
  forall s, is_prefix pat s = true <-> exists post, s = pat ++ post.
Proof.
  induction pat as [|p pat IH]; intros s; simpl.
  - split; [intros _; exists s; reflexivity | reflexivity].
  - destruct s as [|c s].
    + split; [discriminate | intros [post H]; discriminate].
    + rewrite andb_true_iff, IH. split.
      * intros [E [post ->]]. apply Byte.byte_dec_bl in E. subst.
        exists post. reflexivity.
      * intros [post [= -> ->]]. split; [now apply Byte.byte_dec_lb|].
        exists post. reflexivity.
Qed.

Lemma find_unfold pat s :
  find pat s =
    if is_prefix pat s then Some O
    else match s with
         | [] => None
         | _ :: r => option_map S (find pat r)
         end.
Proof. destruct s; reflexivity. Qed.

(** [find] gives the offset of the first occurrence. *)
Lemma find_some pat :
  forall s i, find pat s = Some i ->
  exists pre post, s = pre ++ pat ++ post /\ length pre = i /\
    forall pre' post', s = pre' ++ pat ++ post' -> i <= length pre'.
Proof.
  induction s as [|c r IH]; intros i; rewrite find_unfold.
  - destruct (is_prefix pat []) eqn:E; [|discriminate].
    intros [= <-]. apply is_prefix_iff in E as [post E].
    exists [], post. repeat split; auto. intros. lia.
  - destruct (is_prefix pat (c :: r)) eqn:E.
    + intros [= <-]. apply is_prefix_iff in E as [post E].
      exists [], post. repeat split; auto. intros. lia.
    + destruct (find pat r) as [j|] eqn:F; [|discriminate].
      intros [= <-]. destruct (IH j eq_refl) as (pre & post & -> & <- & Hmin).
      exists (c :: pre), post. repeat split; auto.
      intros [|c' pre'] post' H.
      * assert (is_prefix pat (c :: pre ++ pat ++ post) = true)
          by (apply is_prefix_iff; exists post'; exact H).
        congruence.
      * injection H as _ H. simpl. apply le_n_S. eapply Hmin; eauto.
Qed.

Lemma find_none pat : forall s, find pat s = None <-> ~ occurs pat s.
Proof.
  induction s as [|c r IH]; rewrite find_unfold.
  - destruct (is_prefix pat []) eqn:E.
    + split; [discriminate|]. intros H. exfalso. apply H.
      apply is_prefix_iff in E as [post E]. exists [], post. exact E.
    + split; [|reflexivity]. intros _ (pre & post & H).
      destruct pre; [|discriminate].
      assert (is_prefix pat [] = true)
        by (apply is_prefix_iff; exists post; exact H).
      congruence.
  - destruct (is_prefix pat (c :: r)) eqn:E.
    + split; [discriminate|]. intros H. exfalso. apply H.
      apply is_prefix_iff in E as [post E]. exists [], post. exact E.
    + destruct (find pat r) as [j|] eqn:F; simpl.
      * split; [discriminate|]. intros H. exfalso.
        assert (Hr : ~ occurs pat r).
        { intros (pre & post & ->). apply H. exists (c :: pre), post.
          reflexivity. }
        apply IH in Hr. discriminate.
      * split; [|reflexivity]. intros _ (pre & post & H).
        destruct pre as [|c' pre].
        -- assert (is_prefix pat (c :: r) = true)
             by (apply is_prefix_iff; exists post; exact H).
           congruence.
        -- injection H as _ H. apply (proj1 IH eq_refl).
           exists pre, post. exact H.
Qed.

(** ** [struct.pack(">Q", _)] *)

Lemma bv_byte_of_Z z : Z.of_N (bv (byte_of_Z z)) = (z mod 256)%Z.
Proof.
  unfold byte_of_Z, bv.
  change 0xFF%Z with (Z.ones 8). rewrite Z.land_ones by lia.
  change (2 ^ 8)%Z with 256%Z.
  pose proof (Z.mod_pos_bound z 256 ltac:(lia)) as Hb.
  destruct (Byte.of_N (Z.to_N (z mod 256))) as [b|] eqn:E.
  - apply Byte.to_of_N in E. rewrite E. lia.
  - apply Byte.of_N_None_iff in E. lia.
Qed.

Lemma be_bytes_length k v : length (be_bytes k v) = k.
Proof. induction k; simpl; congruence. Qed.

Lemma be_fold acc bs :
  fold_left (fun a b => (256 * a + Z.of_N (bv b))%Z) bs acc =
    (acc * 256 ^ Z.of_nat (length bs) + be_value bs)%Z.
Proof.
  unfold be_value. revert acc.
  induction bs as [|c bs IH]; intros acc.
  - simpl. lia.
  - cbn [fold_left length]. rewrite IH, (IH (256 * 0 + Z.of_N (bv c))%Z).
    rewrite Nat2Z.inj_succ, Z.pow_succ_r by lia. ring.
Qed.

Lemma be_value_cons b bs :
  be_value (b :: bs) =
    (Z.of_N (bv b) * 256 ^ Z.of_nat (length bs) + be_value bs)%Z.
Proof.
  unfold be_value at 1. cbn [fold_left]. rewrite be_fold. f_equal.
Qed.

(** [be_bytes] is the big-endian representation. *)
Lemma be_value_be_bytes k v :
  (0 <= v)%Z -> be_value (be_bytes k v) = (v mod 256 ^ Z.of_nat k)%Z.
Proof.
  intros Hv. induction k as [|k IH].
  - simpl. now rewrite Z.mod_1_r.
  - cbn [be_bytes]. rewrite be_value_cons, be_bytes_length, IH, bv_byte_of_Z.
    rewrite Z.shiftr_div_pow2 by lia.
    rewrite Nat2Z.inj_succ, Z.pow_succ_r by lia.
    replace (2 ^ (8 * Z.of_nat k))%Z with (256 ^ Z.of_nat k)%Z
      by (rewrite Z.pow_mul_r by lia; reflexivity).
    assert (0 < 256 ^ Z.of_nat k)%Z by (apply Z.pow_pos_nonneg; lia).
    rewrite (Z.mul_comm 256), Z.rem_mul_r by lia. ring.
Qed.

Lemma pack_Q_ok v :
  (0 <= v < 2 ^ 64)%Z ->
  pack_Q v = Ok (be_bytes 8 v) /\ be_value (be_bytes 8 v) = v.
Proof.
  intros Hv. unfold pack_Q.
  replace ((0 <=? v) && (v <? 2 ^ 64))%Z with true
    by (symmetry; apply andb_true_iff; split;
        [apply Z.leb_le | apply Z.ltb_lt]; lia).
  split; [reflexivity|].
  rewrite be_value_be_bytes by lia. apply Z.mod_small.
  change (256 ^ Z.of_nat 8)%Z with (2 ^ 64)%Z. lia.
Qed.

(** ** The ping *)

Lemma build_ping_ok env :
  (0 <= time_ms env < 2 ^ 64)%Z ->
  build_ping env =
    Ok ([x01] ++ be_bytes 8 (time_ms env) ++ magic
        ++ be_bytes 8 (getrandbits 64 (rand_next env))).
Proof.
  intros Ht. unfold build_ping.
  rewrite (proj1 (@pack_Q_ok (time_ms env) Ht)). cbn [bind].
  assert (Hg : (0 <= getrandbits 64 (rand_next env) < 2 ^ 64)%Z)
    by (apply Z.mod_pos_bound; lia).
  rewrite (proj1 (pack_Q_ok Hg)). reflexivity.
Qed.

(** At most one datagram leaves, and only a ping. *)
Lemma sent_at_most_one rt env host port :
  bedrock_sent rt env host port = [] \/
  exists payload,
    bedrock_sent rt env host port =
      [{| dg_payload := payload; dg_host := host; dg_port := port |}] /\
    build_ping env = Ok payload.
Proof.
  unfold bedrock_sent, bedrock_exec.
  destruct (sock_open env) as [[]|]; cbn [bind]; [|now left].
  destruct (sock_settimeout env) as [[]|]; cbn [bind]; [|now left].
  destruct (build_ping env) as [payload|]; [|now left].
  destruct (sock_sendto env payload host port); [|now left].
  right. exists payload. split; reflexivity.
Qed.

(** C3.  With the socket set up, the clock within 64 bits and the send
    accepted, the probe sends exactly one datagram, to [(host, port)]:
    byte 0x01, the time in milliseconds as 8 big-endian bytes, the 16
    bytes of the magic at offsets 9..24, and 8 more bytes; 33 in all. *)
Theorem ping_packet_layout rt env host port :
  sock_open env = Ok tt ->
  sock_settimeout env = Ok tt ->
  (0 <= time_ms env < 2 ^ 64)%Z ->
  (forall p, build_ping env = Ok p -> sock_sendto env p host port = Ok tt) ->
  exists payload,
    bedrock_sent rt env host port =
      [{| dg_payload := payload; dg_host := host; dg_port := port |}] /\
    ping_layout (time_ms env) payload /\
    length payload = 33 /\
    firstn 1 payload = [x01] /\
    be_value (firstn 8 (skipn 1 payload)) = time_ms env /\
    firstn 16 (skipn 9 payload) = magic /\
    magic = [x00; xff; xff; x00; xfe; xfe; xfe; xfe;
             xfd; xfd; xfd; xfd; x12; x34; x56; x78] /\
    length (skipn 25 payload) = 8.
Proof.
  intros Ho Hs Ht Hsend.
  pose proof (build_ping_ok env Ht) as Hb.
  exists ([x01] ++ be_bytes 8 (time_ms env) ++ magic
          ++ be_bytes 8 (getrandbits 64 (rand_next env))).
  split.
  - unfold bedrock_sent, bedrock_exec.
    rewrite Ho, Hs. cbn [bind]. rewrite Hb, (Hsend _ Hb). reflexivity.
  - split; [|repeat split].
    + exists (be_bytes 8 (time_ms env)),
             (be_bytes 8 (getrandbits 64 (rand_next env))).
      repeat split. apply (proj2 (pack_Q_ok Ht)).
    + apply (proj2 (pack_Q_ok Ht)).
Qed.

(** ** The reply *)

Lemma bedrock_status_delivered rt env host port data :
  delivers env host port data ->
  bedrock_status rt env host port = try_except (bedrock_reply rt data) offline.
Proof.
  intros [Ho Hs Ht Hsend Hr Hc].
  pose proof (build_ping_ok env Ht) as Hb.
  unfold bedrock_status, bedrock_exec.
  rewrite Ho, Hs. cbn [bind]. rewrite Hb, (Hsend _ Hb). cbn [snd].
  rewrite Hr. cbn [bind]. rewrite Hc. reflexivity.
Qed.

Lemma bedrock_reply_offline rt data r :
  bedrock_reply rt data = Ok r -> online r = false -> r = offline.
Proof.
  unfold bedrock_reply.
  destruct (not_pong data); [now intros [= <-]|].
  destruct (find magic data) as [idx|]; [|now intros [= <-]].
  destruct (field_or _ 1 _); [|discriminate].
  destruct (field_or _ 3 _); [|discriminate].
  destruct (int_field rt _ 4); [|discriminate].
  destruct (int_field rt _ 5); [|discriminate].
  cbn [bind]. intros [= <-]. discriminate.
Qed.

(** C6.  A reply that starts with 0x1C and does not contain the magic
    as a contiguous substring gives [online = true] and nothing else. *)
Theorem magic_missing_online_only rt env host port data :
  delivers env host port data ->
  firstn 1 data = [x1c] ->
  ~ occurs magic data ->
  bedrock_status rt env host port =
    {| online := true; motd := None; version := None; players := None;
       player_count := None; max_players := None |}.
Proof.
  intros Hd Hhead Hno.
  rewrite (bedrock_status_delivered rt Hd).
  unfold bedrock_reply.
  destruct data as [|b r]; [discriminate|].
  injection Hhead as ->. cbn [not_pong]. 
  rewrite (Byte.byte_dec_lb (eq_refl x1c)). cbn [negb].
  rewrite (proj2 (find_none magic (x1c :: r)) Hno). reflexivity.
Qed.

(** C7.  The probe always returns a result.  A timeout, an exception
    during socket setup, send or receive, an empty reply and a reply
    that does not start with 0x1C give [online = false]; and whenever
    [online] is false no other key is set. *)
Theorem probe_total rt env host port :
  (probe_fails env host port ->
   bedrock_status rt env host port =
     {| online := false; motd := None; version := None; players := None;
        player_count := None; max_players := None |}) /\
  (online (bedrock_status rt env host port) = false ->
   bedrock_status rt env host port =
     {| online := false; motd := None; version := None; players := None;
        player_count := None; max_players := None |}).
Proof.
  fold offline. unfold bedrock_status, bedrock_exec. split.
  - intros H.
    destruct (sock_open env) as [[]|] eqn:Ho; cbn [bind]; [|reflexivity].
    destruct (sock_settimeout env) as [[]|] eqn:Hs; cbn [bind]; [|reflexivity].
    destruct (build_ping env) as [payload|] eqn:Hb; [|reflexivity].
    destruct (sock_sendto env payload host port) eqn:Hsend; [|reflexivity].
    cbn [snd].
    destruct H as [H | H | H | H | H | b r H Hne]; try congruence.
    + rewrite (H _ Hb) in Hsend. discriminate.
    + rewrite H. reflexivity.
    + rewrite H. cbn [bind]. destruct (sock_close env); reflexivity.
    + rewrite H. cbn [bind]. destruct (sock_close env); [|reflexivity].
      cbn [bind]. unfold bedrock_reply. cbn [not_pong].
      destruct (Byte.eqb b x1c) eqn:E; [|reflexivity].
      apply Byte.byte_dec_bl in E. contradiction.
  - destruct (sock_open env) as [[]|]; cbn [bind]; [|reflexivity].
    destruct (sock_settimeout env) as [[]|]; cbn [bind]; [|reflexivity].
    destruct (build_ping env) as [payload|]; [|reflexivity].
    destruct (sock_sendto env payload host port); [|reflexivity].
    cbn [snd].
    destruct (sock_recvfrom env) as [data|]; cbn [bind]; [|reflexivity].
    destruct (sock_close env); cbn [bind]; [|reflexivity].
    destruct (bedrock_reply rt data) as [r|] eqn:E; [|reflexivity].
    cbn [try_except]. intros Hoff. eapply bedrock_reply_offline; eauto.
Qed.

(** ** The server text *)

Lemma field_or_nth parts i d : field_or parts i d = Ok (nth i parts d).
Proof.
  unfold field_or, getitem.
  destruct (i <? length parts) eqn:E.
  - apply Nat.ltb_lt in E.
    rewrite (nth_error_nth' parts d E). reflexivity.
  - apply Nat.ltb_ge in E. now rewrite nth_overflow.
Qed.

Lemma skipn_past {A} (pre mid post : list A) :
  skipn (length pre + length mid) (pre ++ mid ++ post) = post.
Proof.
  rewrite app_assoc, <- length_app, skipn_app, skipn_all, Nat.sub_diag.
  reflexivity.
Qed.

(** C2, amended.  In a pong that starts with 0x1C and contains the
    magic, the bytes after the first occurrence of the magic are decoded
    as UTF-8 with every invalid sequence dropped; NUL characters are
    stripped at both ends; the text is split on [;] into the ordered
    field list, from which the positional fields are read. *)
Theorem pong_fields_ignore_errors data idx :
  firstn 1 data = [x1c] ->
  find magic data = Some idx ->
  exists pre post text,
    data = pre ++ magic ++ post /\
    length pre = idx /\
    (forall pre' post', data = pre' ++ magic ++ post' -> idx <= length pre') /\
    text = strip (N.eqb NUL)
             (flat_map (fun t => match t with Some c => [c] | None => [] end)
                       (utf8_scan post)) /\
    (forall c r, text = c :: r -> c <> NUL) /\
    (forall r c, text = r ++ [c] -> c <> NUL) /\
    pong_fields data idx = split_on SEMI text /\
    join SEMI (pong_fields data idx) = text /\
    Forall (fun f => ~ In SEMI f) (pong_fields data idx) /\
    (forall rt r, bedrock_reply rt data = Ok r ->
       motd r = Some (nth 1 (pong_fields data idx) (lit "Minecraft Bedrock")) /\
       version r = Some (nth 3 (pong_fields data idx) (lit "Bedrock"))).
Proof.
  intros Hhead Hfind.
  destruct (find_some _ _ Hfind) as (pre & post & Hd & Hlen & Hmin).
  exists pre, post. eexists. split; [exact Hd|]. split; [exact Hlen|].
  split; [exact Hmin|]. split; [reflexivity|].
  assert (Hf : pong_fields data idx =
               split_on SEMI (strip (N.eqb NUL)
                 (flat_map (fun t => match t with Some c => [c] | None => [] end)
                           (utf8_scan post)))).
  { unfold pong_fields, server_id. rewrite Hd at 1. rewrite <- Hlen.
    now rewrite skipn_past. }
  destruct (strip_ends (N.eqb NUL)
    (flat_map (fun t => match t with Some c => [c] | None => [] end)
              (utf8_scan post))) as [Hl Hr].
  repeat split.
  - intros c r H ->. apply Hl in H. discriminate.
  - intros r c H ->. apply Hr in H. discriminate.
  - exact Hf.
  - rewrite Hf. apply join_split_on.
  - apply split_on_fields.
  - unfold bedrock_reply in H.
    destruct data as [|b d]; [discriminate|]. injection Hhead as ->.
    cbn [not_pong] in H. rewrite (Byte.byte_dec_lb (eq_refl x1c)) in H.
    cbn [negb] in H. rewrite Hfind, !field_or_nth in H. cbn [bind] in H.
    destruct (int_field rt _ 4); [|discriminate].
    destruct (int_field rt _ 5); [|discriminate].
    injection H as <-. reflexivity.
  - unfold bedrock_reply in H.
    destruct data as [|b d]; [discriminate|]. injection Hhead as ->.
    cbn [not_pong] in H. rewrite (Byte.byte_dec_lb (eq_refl x1c)) in H.
    cbn [negb] in H. rewrite Hfind, !field_or_nth in H. cbn [bind] in H.
    destruct (int_field rt _ 4); [|discriminate].
    destruct (int_field rt _ 5); [|discriminate].
    injection H as <-. reflexivity.
Qed.

Import Samples.

(** The field list of a well-formed pong. *)
Lemma pong_fields_ignore_errors_witness :
  exists pre post text,
    pong_good = pre ++ magic ++ post /\
    length pre = 17 /\
    (forall pre' post', pong_good = pre' ++ magic ++ post' -> 17 <= length pre') /\
    text = strip (N.eqb NUL)
             (flat_map (fun t => match t with Some c => [c] | None => [] end)
                       (utf8_scan post)) /\
    (forall c r, text = c :: r -> c <> NUL) /\
    (forall r c, text = r ++ [c] -> c <> NUL) /\
    pong_fields pong_good 17 = split_on SEMI text /\
    join SEMI (pong_fields pong_good 17) = text /\
    Forall (fun f => ~ In SEMI f) (pong_fields pong_good 17) /\
    (forall rt r, bedrock_reply rt pong_good = Ok r ->
       motd r = Some (nth 1 (pong_fields pong_good 17) (lit "Minecraft Bedrock")) /\
       version r = Some (nth 3 (pong_fields pong_good 17) (lit "Bedrock"))).
Proof.
  apply (@pong_fields_ignore_errors pong_good 17); vm_compute; reflexivity.
Defined.

Example pong_good_reply :
  bedrock_status ascii_rt (good_net pong_good) localhost 19132 =
    {| online := true; motd := Some (lit "Dedicated Server");
       version := Some (lit "1.19.1"); players := Some [];
       player_count := Some 3%Z; max_players := Some 10%Z |}.
Proof. vm_compute. reflexivity. Qed.

(** C2 as stated fails: an invalid byte leaves no replacement character
    in the field, and a leading NUL is stripped as well. *)
Lemma pong_fields_not_replaced :
  firstn 1 pong_invalid = [x1c] /\
  find magic pong_invalid = Some 17 /\
  pong_fields pong_invalid 17 = [[5; 77]; [65; 66]]%N /\
  spec_pong_fields pong_invalid 17 = [[0; 5; 77]; [65; REPLACEMENT; 66]]%N /\
  pong_fields pong_invalid 17 <> spec_pong_fields pong_invalid 17.
Proof.
  repeat split; try (vm_compute; reflexivity).
  vm_compute. discriminate.
Qed.

(** The ping on a working network. *)
Lemma ping_packet_layout_witness :
  exists payload,
    bedrock_sent ascii_rt (good_net pong_good) localhost 19132 =
      [{| dg_payload := payload; dg_host := localhost; dg_port := 19132 |}] /\
    length payload = 33 /\
    firstn 16 (skipn 9 payload) = magic /\
    be_value (firstn 8 (skipn 1 payload)) = 1700000000123%Z.
Proof.
  destruct (@ping_packet_layout ascii_rt (good_net pong_good) localhost 19132
              eq_refl eq_refl ltac:(cbn; lia) (fun _ _ => eq_refl))
    as (payload & Hs & _ & Hl & _ & Ht & Hm & _).
  exists payload. repeat split; assumption.
Defined.

Lemma good_net_delivers data : delivers (good_net data) localhost 19132 data.
Proof. constructor; try reflexivity. cbn. lia. Qed.

(** A pong whose magic is corrupted. *)
Lemma magic_missing_online_only_witness :
  firstn 1 pong_bad_magic = [x1c] /\
  ~ occurs magic pong_bad_magic /\
  bedrock_status ascii_rt (good_net pong_bad_magic) localhost 19132 =
    {| online := true; motd := None; version := None; players := None;
       player_count := None; max_players := None |}.
Proof.
  assert (Hno : ~ occurs magic pong_bad_magic).
  { apply find_none. vm_compute. reflexivity. }
  split; [reflexivity|]. split; [exact Hno|].
  exact (@magic_missing_online_only ascii_rt _ _ _ _
           (good_net_delivers pong_bad_magic) eq_refl Hno).
Defined.

(** No reply within the timeout. *)
Lemma probe_total_witness :
  probe_fails silent_net localhost 19132 /\
  bedrock_status ascii_rt silent_net localhost 19132 =
    {| online := false; motd := None; version := None; players := None;
       player_count := None; max_players := None |}.
Proof.
  assert (H : probe_fails silent_net localhost 19132)
    by (apply receive_fails; reflexivity).
  split; [exact H|].
  exact (proj1 (probe_total ascii_rt silent_net localhost 19132) H).
Defined.

(** A digit that [int] rejects in the player count: the exception is
    caught and the server is reported as not online. *)
Example superscript_player_count :
  bedrock_status latin1_rt
    (good_net (pong_head ++ magic ++ [x4d; x3b; x41; x3b; x31; x3b; x32; x3b; xc2; xb2]))
    localhost 19132 = offline.
Proof. vm_compute. reflexivity. Qed.

End BedrockFacts.

(** * Facts about the dump parser *)

Module VpnFacts.
Import Vpn Digits.

Lemma str_eqb_eq a : forall b, str_eqb a b = true <-> a = b.
Proof.
  induction a as [|x a IH]; intros [|y b]; simpl; try (split; congruence).
  rewrite andb_true_iff, N.eqb_eq, IH. split.
  - intros [-> ->]. reflexivity.
  - intros [= -> ->]. split; reflexivity.
Qed.

Lemma getitem_nth {A} (l : list A) i a :
  nth_error l i = Some a -> getitem l i = Ok a.
Proof. unfold getitem. now intros ->. Qed.

Lemma getitem_short {A} (l : list A) i :
  length l <= i -> getitem l i = @Raise A.
Proof.
  intros H. unfold getitem.
  now rewrite (proj2 (nth_error_None l i) H).
Qed.

(** ** Numbers *)

Lemma py_int_nonneg rt s v : py_int rt s = Ok v -> (0 <= v)%Z.
Proof.
  unfold py_int. destruct s; [discriminate|].
  destruct (int_refuses rt _); [discriminate|].
  destruct (int_acc rt 0 _); [|discriminate].
  cbn [bind]. intros [= <-]. lia.
Qed.

Lemma int_acc_total rt s :
  (forall c, In c s -> char_decimal rt c <> None) ->
  forall acc, exists v, int_acc rt acc s = Ok v.
Proof.
  induction s as [|c s IH]; intros H acc; simpl.
  - exists acc. reflexivity.
  - destruct (char_decimal rt c) eqn:E.
    + apply IH. intros d Hd. apply H. now right.
    + exfalso. apply (H c); [now left | exact E].
Qed.

(** *** [str.isdigit] and [int] on the tokens of the specification *)

Lemma digit_value_decimal rt c :
  digit_value rt c = option_map Z.of_N (char_decimal rt c).
Proof.
  unfold digit_value, char_decimal.
  destruct ((48 <=? c) && (c <=? 57))%N eqn:E.
  - apply andb_prop in E as [E1 E2].
    apply N.leb_le in E1. apply N.leb_le in E2.
    replace (c <? 128)%N with true by (symmetry; apply N.ltb_lt; lia).
    cbn [option_map]. f_equal. lia.
  - destruct (c <? 128)%N; reflexivity.
Qed.

Lemma digit_value_nonneg rt c d : digit_value rt c = Some d -> (0 <= d)%Z.
Proof.
  rewrite digit_value_decimal.
  destruct (char_decimal rt c); cbn [option_map]; [|discriminate].
  intros [= <-]. lia.
Qed.

Lemma dec_value_nonneg rt t : (0 <= dec_value rt t)%Z.
Proof.
  induction t as [|c r IH]; cbn [dec_value]; [lia|].
  destruct (digit_value rt c) as [d|] eqn:E.
  - apply digit_value_nonneg in E.
    assert (0 <= 10 ^ Z.of_nat (length r))%Z by (apply Z.pow_nonneg; lia).
    nia.
  - lia.
Qed.

Lemma token_value_nonneg rt t : (0 <= token_value rt t)%Z.
Proof.
  unfold token_value. destruct (decimal_token rt t); [|lia].
  apply dec_value_nonneg.
Qed.

(** The loop of [int] computes the positional value. *)
Lemma int_acc_value rt t :
  forallb (fun c => match digit_value rt c with Some _ => true | None => false end)
          t = true ->
  forall acc, exists v,
    int_acc rt acc t = Ok v /\
    Z.of_N v = (Z.of_N acc * 10 ^ Z.of_nat (length t) + dec_value rt t)%Z.
Proof.
  induction t as [|c r IH]; intros H acc.
  - exists acc. split; [reflexivity|]. cbn. lia.
  - cbn [forallb] in H. apply andb_prop in H as [Hc Hr].
    cbn [int_acc dec_value length]. rewrite digit_value_decimal in *.
    destruct (char_decimal rt c) as [d|]; cbn [option_map] in *;
      [|discriminate].
    destruct (IH Hr (10 * acc + d)%N) as (v & Hv & Hval).
    exists v. split; [exact Hv|]. rewrite Hval.
    rewrite Nat2Z.inj_succ, Z.pow_succ_r by lia. lia.
Qed.

Lemma decimal_isdigit rt t :
  decimal_token rt t = true -> py_isdigit rt t = true.
Proof.
  unfold decimal_token, py_isdigit. intros H.
  apply andb_prop in H as [-> H]. cbn [andb].
  apply forallb_forall. intros c Hc.
  apply (proj1 (forallb_forall _ _) H) in Hc.
  rewrite digit_value_decimal in Hc. unfold char_isdigit.
  destruct (char_decimal rt c); [reflexivity | discriminate].
Qed.

Lemma decimal_int rt t :
  decimal_token rt t = true -> int_refuses rt t = false ->
  py_int rt t = Ok (dec_value rt t).
Proof.
  unfold decimal_token, py_int. intros H Hg.
  apply andb_prop in H as [Ht H]. rewrite Hg.
  destruct t as [|c r]; [discriminate|].
  destruct (int_acc_value rt (c :: r) H 0) as (v & -> & Hv).
  cbn [bind]. f_equal. rewrite Hv. lia.
Qed.

Lemma not_numeric_isdigit rt t :
  not_numeric rt t = true -> py_isdigit rt t = false.
Proof.
  unfold not_numeric, py_isdigit. intros H.
  apply orb_prop in H as [H | H].
  - apply negb_true_iff in H. now rewrite H.
  - apply existsb_exists in H as (c & Hin & Hc).
    apply andb_false_iff. right.
    destruct (forallb (char_isdigit rt) t) eqn:E; [|reflexivity].
    apply (proj1 (forallb_forall _ _) E) in Hin.
    unfold no_digit in Hc. rewrite digit_value_decimal in Hc.
    unfold char_isdigit in Hin.
    destruct (char_decimal rt c); cbn [option_map] in Hc; [discriminate|].
    apply andb_prop in Hin as [H1 H2]. rewrite H2 in Hc.
    apply N.leb_le in H1.
    replace (c <? 128)%N with false in Hc
      by (symmetry; apply N.ltb_ge; exact H1).
    discriminate.
Qed.

Lemma not_numeric_decimal rt t :
  not_numeric rt t = true -> decimal_token rt t = false.
Proof.
  intros H. apply not_numeric_isdigit in H.
  destruct (decimal_token rt t) eqn:E; [|reflexivity].
  apply decimal_isdigit in E. congruence.
Qed.

Lemma num_field_value rt p i t :
  nth_error p i = Some t -> plain_token rt t ->
  num_field rt p i = Ok (token_value rt t).
Proof.
  intros Hn Ht. unfold num_field, token_value.
  rewrite (getitem_nth _ _ Hn). cbn [bind].
  destruct Ht as [[Hd Hg] | Hx].
  - rewrite (decimal_isdigit _ _ Hd), Hd. now apply decimal_int.
  - now rewrite (not_numeric_isdigit _ _ Hx), (not_numeric_decimal _ _ Hx).
Qed.

Lemma none_field_value p i t :
  nth_error p i = Some t -> none_field p i = Ok (none_value t).
Proof.
  intros Hn. unfold none_field, none_value.
  rewrite (getitem_nth _ _ Hn). cbn [bind].
  destruct (list_eq_dec N.eq_dec t (lit "(none)")) as [E | E].
  - now rewrite (proj2 (str_eqb_eq _ _) E).
  - destruct (str_eqb t (lit "(none)")) eqn:Eb; [|reflexivity].
    apply str_eqb_eq in Eb. contradiction.
Qed.

(** C4.  A peer line with its eight fields, each numeric token a string
    of decimal digits that [int] does not refuse or a token that is
    empty or holds a character that is no digit, gives the peer record
    in which: ["(none)"] as endpoint or allowed IPs is the empty value;
    each numeric field is the integer its digits denote, never
    negative, and 0 for the other tokens; a keepalive of 0 is absent;
    the handshake age is present exactly when the latest handshake is
    positive and then is [now - latest_handshake], not clamped. *)
Theorem peer_record_fields rt now l p0 p1 p2 p3 p4 p5 p6 p7 rest :
  split_on TAB l = p0 :: p1 :: p2 :: p3 :: p4 :: p5 :: p6 :: p7 :: rest ->
  plain_token rt p4 -> plain_token rt p5 ->
  plain_token rt p6 -> plain_token rt p7 ->
  parse_peer rt now l = Ok (peer_of rt now p0 p2 p3 p4 p5 p6 p7) /\
  (0 <= token_value rt p4)%Z /\ (0 <= token_value rt p5)%Z /\
  (0 <= token_value rt p6)%Z /\ (0 <= token_value rt p7)%Z.
Proof.
  intros Hs H4 H5 H6 H7.
  pose proof (token_value_nonneg rt p4) as Hhs.
  split; [|repeat split; apply token_value_nonneg].
  unfold parse_peer. rewrite Hs.
  set (p := p0 :: p1 :: p2 :: p3 :: p4 :: p5 :: p6 :: p7 :: rest).
  rewrite (@none_field_value p 2 p2 eq_refl),
          (@none_field_value p 3 p3 eq_refl).
  rewrite (@num_field_value rt p 4 p4 eq_refl H4),
          (@num_field_value rt p 5 p5 eq_refl H5),
          (@num_field_value rt p 6 p6 eq_refl H6),
          (@num_field_value rt p 7 p7 eq_refl H7).
  subst p.
  cbn [bind getitem nth_error]. unfold peer_of. do 2 f_equal.
  destruct (token_value rt p4 =? 0)%Z eqn:E.
  - apply Z.eqb_eq in E. rewrite E. reflexivity.
  - apply Z.eqb_neq in E.
    replace (0 <? token_value rt p4)%Z with true
      by (symmetry; apply Z.ltb_lt; lia).
    reflexivity.
Qed.

(** A numeric token that [str.isdigit] accepts and [int] rejects: the
    exception is caught by the loop, the line gives no record. *)
Lemma rejected_token_skips_line rt now l i t :
  4 <= i <= 7 -> nth_error (split_on TAB l) i = Some t ->
  py_isdigit rt t = true -> py_int rt t = Raise ->
  parse_peer rt now l = Raise.
Proof.
  intros Hi Hn Hd Hr. unfold parse_peer.
  set (p := split_on TAB l) in *.
  assert (Hnum : num_field rt p i = Raise).
  { unfold num_field. rewrite (getitem_nth _ _ Hn). cbn [bind].
    now rewrite Hd. }
  destruct (getitem p 0); cbn [bind]; [|reflexivity].
  destruct (none_field p 2); cbn [bind]; [|reflexivity].
  destruct (none_field p 3); cbn [bind]; [|reflexivity].
  assert (Hc : i = 4 \/ i = 5 \/ i = 6 \/ i = 7) by lia.
  destruct Hc as [-> | [-> | [-> | ->]]].
  - now rewrite Hnum.
  - destruct (num_field rt p 4); cbn [bind]; [|reflexivity].
    now rewrite Hnum.
  - destruct (num_field rt p 4); cbn [bind]; [|reflexivity].
    destruct (num_field rt p 5); cbn [bind]; [|reflexivity].
    now rewrite Hnum.
  - destruct (num_field rt p 4); cbn [bind]; [|reflexivity].
    destruct (num_field rt p 5); cbn [bind]; [|reflexivity].
    destruct (num_field rt p 6); cbn [bind]; [|reflexivity].
    now rewrite Hnum.
Qed.

(** ** The loop over the peer lines *)

(** A line with fewer than eight fields raises [IndexError]. *)
Lemma parse_peer_short rt now l :
  too_short l = true -> parse_peer rt now l = Raise.
Proof.
  unfold too_short, parse_peer. intros H. apply Nat.ltb_lt in H.
  assert (H7 : num_field rt (split_on TAB l) 7 = Raise).
  { unfold num_field. now rewrite getitem_short by lia. }
  destruct (getitem _ 0); cbn [bind]; [|reflexivity].
  destruct (none_field _ 2); cbn [bind]; [|reflexivity].
  destruct (none_field _ 3); cbn [bind]; [|reflexivity].
  destruct (num_field rt _ 4); cbn [bind]; [|reflexivity].
  destruct (num_field rt _ 5); cbn [bind]; [|reflexivity].
  destruct (num_field rt _ 6); cbn [bind]; [|reflexivity].
  rewrite H7. reflexivity.
Qed.

Lemma peers_loop_acc rt now ls :
  forall acc, peers_loop rt now ls acc = acc ++ peers_loop rt now ls [].
Proof.
  induction ls as [|l ls IH]; intros acc; simpl.
  - now rewrite app_nil_r.
  - destruct (parse_peer rt now l) as [pr|].
    + rewrite (IH (acc ++ [pr])), (IH [pr]), <- app_assoc. reflexivity.
    + apply IH.
Qed.

(** A line that raises changes nothing for the lines around it. *)
Lemma peers_loop_skip rt now a bad b :
  parse_peer rt now bad = Raise ->
  peers_loop rt now (a ++ bad :: b) [] = peers_loop rt now (a ++ b) [].
Proof.
  intros Hbad. induction a as [|l a IH]; simpl.
  - now rewrite Hbad.
  - destruct (parse_peer rt now l) as [pr|]; [|exact IH].
    rewrite (peers_loop_acc rt now (a ++ bad :: b)),
            (peers_loop_acc rt now (a ++ b)), IH. reflexivity.
Qed.

Lemma peers_loop_parsed rt now ls :
  Forall (fun l => too_short l = true \/
                   exists pr, parse_peer rt now l = Ok pr) ls ->
  map Ok (peers_loop rt now ls []) =
    map (parse_peer rt now) (filter (fun l => negb (too_short l)) ls).
Proof.
  induction 1 as [|l ls Hl _ IH]; [reflexivity|].
  simpl. destruct (parse_peer rt now l) as [pr|] eqn:E.
  - destruct (too_short l) eqn:Es.
    + rewrite (parse_peer_short rt now l Es) in E. discriminate.
    + cbn [negb map]. rewrite peers_loop_acc. cbn [app map].
      rewrite IH, E. reflexivity.
  - destruct Hl as [Hs | [pr Hpr]]; [|congruence].
    rewrite Hs. exact IH.
Qed.

Lemma dump_lines_nonempty raw : dump_lines raw <> [] -> truthy raw = true.
Proof. destruct raw; [intros H; now elim H | reflexivity]. Qed.

(** C5.  In a dump whose peer lines are either too short or well formed,
    the too-short lines are skipped one by one and the peers returned
    are exactly those of the well-formed lines, in dump order. *)
Theorem malformed_lines_skipped rt name h l0 ls :
  dump_lines (wg_dump h) = l0 :: ls ->
  (exists info, parse_iface rt l0 = Ok info) ->
  Forall (fun l => too_short l = true \/
                   exists pr, parse_peer rt (now h) l = Ok pr) ls ->
  exists st prs,
    vpn_status rt name h = Ok st /\
    running st = true /\
    peers st = Some prs /\
    map Ok prs =
      map (parse_peer rt (now h)) (filter (fun l => negb (too_short l)) ls) /\
    (forall a bad b, ls = a ++ bad :: b -> too_short bad = true ->
       prs = peers_loop rt (now h) (a ++ b) []).
Proof.
  intros Hd [info Hi] Hls. unfold vpn_status.
  rewrite (@dump_lines_nonempty (wg_dump h)) by (rewrite Hd; discriminate).
  cbn [negb]. rewrite Hd, Hi. cbn [bind].
  eexists. eexists. split; [reflexivity|]. cbn [running peers].
  repeat split.
  - apply peers_loop_parsed. exact Hls.
  - intros a bad b -> Hbad. apply peers_loop_skip.
    now apply parse_peer_short.
Qed.

(** ** The interface line *)

Lemma nonblank_prefix k l :
  existsb (fun c => negb (is_space c)) k = true ->
  truthy (strip is_space (k ++ l)) = true.
Proof.
  intros H. apply existsb_exists in H as (c & Hin & Hc).
  apply negb_true_iff in Hc.
  destruct (strip is_space (k ++ l)) as [|d r] eqn:E; [|reflexivity].
  exfalso. unfold strip, rstrip in E.
  apply (f_equal (@rev N)) in E. rewrite rev_involutive in E. simpl in E.
  assert (Hall : forall s, lstrip is_space s = [] ->
                 forall x, In x s -> is_space x = true).
  { induction s as [|y s IH]; simpl; [contradiction|].
    destruct (is_space y) eqn:Ey; [|discriminate].
    intros Hs x [<- | Hx]; auto. }
  assert (Hl : lstrip is_space (k ++ l) = []).
  { destruct (lstrip is_space (k ++ l)) as [|y s] eqn:El; [reflexivity|].
    assert (In y (rev (y :: s))) by (apply -> in_rev; now left).
    pose proof (Hall _ E y H) as Hy.
    apply lstrip_head in El. congruence. }
  assert (is_space c = true)
    by (apply (Hall _ Hl); apply in_or_app; now left).
  congruence.
Qed.

Lemma field_value_nonempty k : field_value k -> k <> [].
Proof. intros [_ H] ->. discriminate. Qed.

Lemma field_value_split k :
  field_value k ->
  forallb (fun c => negb (is_linebreak c)) k = true /\
  forallb (fun c => negb (c =? TAB)%N) k = true.
Proof.
  intros [H _]. split; apply forallb_forall; intros c Hc;
    apply (proj1 (forallb_forall _ _) H) in Hc;
    apply andb_prop in Hc; tauto.
Qed.

(** The lines of [k ++ rest]: [k] opens the first line, which goes on
    with a tab or ends there, and nothing else depends on [k]. *)
Lemma dump_lines_first rest :
  after_field rest ->
  exists l ls,
    (l = [] \/ exists l', l = TAB :: l') /\
    forall k, field_value k -> dump_lines (k ++ rest) = (k ++ l) :: ls.
Proof.
  intros Ha. unfold dump_lines.
  destruct (splitlines rest) as [|l ls0] eqn:E.
  - exists [], []. split; [now left|]. intros k Hk.
    rewrite splitlines_prefix, E
      by (try apply field_value_split; try apply field_value_nonempty; auto).
    cbn [filter]. rewrite app_nil_r.
    rewrite <- (app_nil_r k) at 1.
    rewrite nonblank_prefix by apply Hk. reflexivity.
  - exists l, (filter (fun l => truthy (strip is_space l)) ls0). split.
    + destruct rest as [|c r]; [discriminate|].
      rewrite splitlines_cons in E. cbn [after_field] in Ha.
      destruct (is_linebreak c) eqn:Ec.
      * left. destruct (c =? CR)%N; [destruct r as [|c' r']|];
          try destruct (c' =? LF)%N; congruence.
      * destruct Ha as [-> | Hc]; [|congruence].
        right. destruct (splitlines r); injection E as <- _; eauto.
    + intros k Hk.
      rewrite splitlines_prefix, E
        by (try apply field_value_split; try apply field_value_nonempty; auto).
      cbn [filter]. rewrite nonblank_prefix by apply Hk. reflexivity.
Qed.

Lemma split_first_field k l :
  field_value k -> (l = [] \/ exists l', l = TAB :: l') ->
  exists fs, split_on TAB (k ++ l) = k :: fs /\
    forall k', field_value k' -> split_on TAB (k' ++ l) = k' :: fs.
Proof.
  intros Hk [-> | [l' ->]].
  - exists []. split; [|intros k' Hk']; rewrite app_nil_r;
      apply split_on_whole; now apply field_value_split.
  - exists (split_on TAB l'). split; [|intros k' Hk'];
      apply split_on_prefix; now apply field_value_split.
Qed.

Lemma parse_iface_tail rt l0 l0' a a' fs :
  split_on TAB l0 = a :: fs -> split_on TAB l0' = a' :: fs ->
  parse_iface rt l0 = parse_iface rt l0'.
Proof.
  intros H H'. unfold parse_iface, port_field. rewrite H, H'. reflexivity.
Qed.

(** The first field of the first line does not reach the result. *)
Lemma first_field_ignored rt name h k1 k2 rest :
  field_value k1 -> field_value k2 -> after_field rest ->
  vpn_status rt name (with_dump h (k1 ++ rest)) =
    vpn_status rt name (with_dump h (k2 ++ rest)).
Proof.
  intros Hk1 Hk2 Ha.
  destruct (dump_lines_first rest Ha) as (l & ls & Hl & Hlines).
  destruct (split_first_field Hk1 Hl) as (fs & Hfs & Hfs').
  assert (Hrun : forall k, field_value k ->
    vpn_status rt name (with_dump h (k ++ rest)) =
      (info <- parse_iface rt (k ++ l) ;;
       Ok {| type := lit "wireguard"; iface := Some name; running := true;
             interface := Some info;
             peers := Some (peers_loop rt (now h) ls []) |})).
  { intros k Hk. unfold vpn_status, with_dump. cbn [wg_dump now].
    destruct (k ++ rest) as [|c r] eqn:E.
    - apply app_eq_nil in E as [-> _]. now apply field_value_nonempty in Hk.
    - cbn [truthy negb]. rewrite <- E, (Hlines k Hk). reflexivity. }
  rewrite (Hrun k1 Hk1), (Hrun k2 Hk2).
  rewrite (@parse_iface_tail rt (k1 ++ l) (k2 ++ l) k1 k2 fs); auto.
Qed.

(** ** [str.strip] on the output of the command *)

Lemma lstrip_app_keep p k x :
  existsb (fun c => negb (p c)) k = true ->
  lstrip p (k ++ x) = lstrip p k ++ x.
Proof.
  induction k as [|c k IH]; simpl; [discriminate|].
  destruct (p c); simpl; [exact IH | reflexivity].
Qed.

Lemma lstrip_all_app p x y :
  forallb p x = true -> lstrip p (x ++ y) = lstrip p y.
Proof.
  induction x as [|c x IH]; simpl; [reflexivity|].
  destruct (p c); simpl; [exact IH | discriminate].
Qed.

Lemma rstrip_app_keep p k x :
  existsb (fun c => negb (p c)) x = true ->
  rstrip p (k ++ x) = k ++ rstrip p x.
Proof.
  intros H. unfold rstrip.
  rewrite rev_app_distr, lstrip_app_keep, rev_app_distr, rev_involutive;
    [reflexivity|].
  apply existsb_exists in H as (c & Hin & Hc).
  apply existsb_exists. exists c. split; [|exact Hc].
  now apply -> in_rev.
Qed.

Lemma rstrip_all_app p k x :
  forallb p x = true -> rstrip p (k ++ x) = rstrip p k.
Proof.
  intros H. unfold rstrip. rewrite rev_app_distr, lstrip_all_app;
    [reflexivity|].
  apply forallb_forall. intros c Hc.
  apply (proj2 (in_rev _ _)) in Hc.
  exact (proj1 (forallb_forall _ _) H c Hc).
Qed.

Lemma existsb_negb_false p (x : str) :
  existsb (fun c => negb (p c)) x = false -> forallb p x = true.
Proof.
  induction x as [|c x IH]; simpl; [reflexivity|].
  destruct (p c); simpl; [exact IH | discriminate].
Qed.

Lemma line_boundary_is_space c : is_linebreak c = true -> is_space c = true.
Proof.
  unfold is_linebreak, is_space.
  repeat rewrite ?orb_true_iff, ?andb_true_iff, ?N.leb_le, ?N.eqb_eq.
  lia.
Qed.

(** Stripping a field value leaves a field value. *)
Lemma field_value_strip k :
  field_value k ->
  field_value (lstrip is_space k) /\ field_value (strip is_space k).
Proof.
  intros [Hall Hex].
  destruct (lstrip_suffix is_space k) as [pre Hpre].
  destruct (rstrip_prefix is_space (lstrip is_space k)) as [post Hpost].
  fold (strip is_space k) in Hpost.
  assert (Hl : forallb (fun c => negb (c =? TAB)%N && negb (is_linebreak c))
                 (lstrip is_space k) = true).
  { rewrite Hpre, forallb_app in Hall. now apply andb_prop in Hall. }
  assert (Hs : forallb (fun c => negb (c =? TAB)%N && negb (is_linebreak c))
                 (strip is_space k) = true).
  { rewrite Hpost, forallb_app in Hl. now apply andb_prop in Hl. }
  pose proof (nonblank_prefix k [] Hex) as Ht. rewrite app_nil_r in Ht.
  destruct (strip is_space k) as [|c r] eqn:E; [discriminate|].
  assert (Hc : is_space c = false)
    by (eapply (proj1 (strip_ends is_space k)); exact E).
  split; split; auto.
  - rewrite Hpost. simpl. now rewrite Hc.
  - simpl. now rewrite Hc.
Qed.

(** The output of the command, stripped: the first field stays a field
    value, and what follows it depends on what followed it. *)
Lemma strip_first_field rest :
  after_field rest ->
  exists rest', after_field rest' /\
    forall k, field_value k ->
    exists k', field_value k' /\ strip is_space (k ++ rest) = k' ++ rest'.
Proof.
  intros Ha.
  destruct (existsb (fun c => negb (is_space c)) rest) eqn:E.
  - exists (rstrip is_space rest). split.
    + destruct rest as [|c r]; [discriminate|]. cbn [after_field] in Ha.
      assert (Hc : is_space c = true).
      { destruct Ha as [-> | Hc]; [reflexivity|].
        now apply line_boundary_is_space. }
      simpl in E. rewrite Hc in E. simpl in E.
      change (c :: r) with ([c] ++ r). rewrite rstrip_app_keep by exact E.
      exact Ha.
    + intros k Hk. exists (lstrip is_space k).
      split; [now apply field_value_strip|].
      unfold strip. rewrite lstrip_app_keep by apply Hk.
      now rewrite rstrip_app_keep.
  - exists []. split; [exact I|]. intros k Hk.
    exists (strip is_space k). split; [now apply field_value_strip|].
    unfold strip. rewrite lstrip_app_keep by apply Hk.
    rewrite rstrip_all_app by now apply existsb_negb_false.
    now rewrite app_nil_r.
Qed.

(** ** The interface record *)

Lemma parse_iface_value rt l0 :
  plain_port rt (nth_error (split_on TAB l0) 2) ->
  parse_iface rt l0 = Ok (iface_of rt (split_on TAB l0)).
Proof.
  unfold parse_iface, port_field, iface_of.
  set (parts := split_on TAB l0). intros Hp.
  change (if 1 <? length parts then getitem parts 1 else Ok [])
    with (Bedrock.field_or parts 1 []).
  rewrite BedrockFacts.field_or_nth. cbn [bind].
  destruct (nth_error parts 2) as [t|] eqn:E.
  - assert (Hlen : 2 < length parts) by (apply nth_error_Some; congruence).
    rewrite (proj2 (Nat.ltb_lt _ _) Hlen), (getitem_nth _ _ E).
    cbn [bind plain_port port_value] in *.
    destruct Hp as [[Hd Hg] | Hx].
    + rewrite (decimal_isdigit _ _ Hd), Hd, (decimal_int _ _ Hd Hg).
      reflexivity.
    + rewrite (not_numeric_isdigit _ _ Hx), (not_numeric_decimal _ _ Hx).
      reflexivity.
  - apply nth_error_None in E.
    rewrite (proj2 (Nat.ltb_ge _ _) E). reflexivity.
Qed.

(** C9.  The first line of the dump that is not blank gives the
    interface record: its second field as public key and its third as
    listen port, the integer its decimal digits denote, absent when the
    field is missing, empty or holds a character that is no digit; a
    result is returned, with nothing else of that line.  And two
    outputs of the command that differ only in the value of the first
    field of that line, not blank in either, give the same result. *)
Theorem private_key_not_exposed rt name :
  (forall h l0 ls,
     dump_lines (wg_dump h) = l0 :: ls ->
     plain_port rt (nth_error (split_on TAB l0) 2) ->
     vpn_status rt name h =
       Ok {| type := lit "wireguard"; iface := Some name; running := true;
             interface := Some (iface_of rt (split_on TAB l0));
             peers := Some (peers_loop rt (now h) ls []) |}) /\
  (forall sys which t k1 k2 rest,
     field_value k1 -> field_value k2 -> after_field rest ->
     vpn_status rt name (Service.host_of (Ok (k1 ++ rest)) sys which t) =
     vpn_status rt name (Service.host_of (Ok (k2 ++ rest)) sys which t)).
Proof.
  split.
  - intros h l0 ls Hd Hp. unfold vpn_status.
    rewrite (@dump_lines_nonempty (wg_dump h)) by (rewrite Hd; discriminate).
    cbn [negb]. rewrite Hd, (parse_iface_value rt l0 Hp). reflexivity.
  - intros sys which t k1 k2 rest Hk1 Hk2 Ha.
    destruct (strip_first_field rest Ha) as (rest' & Ha' & Hs).
    destruct (Hs k1 Hk1) as (k1' & Hk1' & E1).
    destruct (Hs k2 Hk2) as (k2' & Hk2' & E2).
    assert (Hhost : forall k k', strip is_space (k ++ rest) = k' ++ rest' ->
      Service.host_of (Ok (k ++ rest)) sys which t =
      with_dump (Service.host_of Raise sys which t) (k' ++ rest')).
    { intros k k' E. unfold Service.host_of, with_dump, Service.try_cmd.
      cbn. now rewrite E. }
    rewrite (Hhost _ _ E1), (Hhost _ _ E2).
    now apply first_field_ignored.
Qed.

Import Samples.

(** A peer that shook hands 100 seconds ago, and a line whose tokens
    are no numbers. *)
Lemma peer_record_fields_witness :
  parse_peer ascii_rt 1700000200
    (peer_line (lit "peerA") (lit "192.0.2.7:51820")) =
  Ok {| peer_key := lit "peerA"; endpoint := lit "192.0.2.7:51820";
        allowed_ips := lit "10.0.0.2/32";
        latest_handshake := 1700000100; handshake_age_sec := Some 100%Z;
        transfer_rx := 100; transfer_tx := 200;
        persistent_keepalive := Some 25%Z |} /\
  parse_peer ascii_rt 1700000200
    (tabbed [lit "peerB"; lit "psk"; lit "(none)"; lit "(none)";
             lit "never"; []; lit "12x"; lit "0"; lit "more"]) =
  Ok {| peer_key := lit "peerB"; endpoint := []; allowed_ips := [];
        latest_handshake := 0; handshake_age_sec := None;
        transfer_rx := 0; transfer_tx := 0;
        persistent_keepalive := None |}.
Proof.
  assert (Hnum : forall t, decimal_token ascii_rt t = true ->
                           plain_token ascii_rt t)
    by (intros t Ht; left; split; [exact Ht | reflexivity]).
  split.
  - rewrite (proj1 (@peer_record_fields ascii_rt 1700000200
              (peer_line (lit "peerA") (lit "192.0.2.7:51820"))
              (lit "peerA") (lit "(none)") (lit "192.0.2.7:51820")
              (lit "10.0.0.2/32") (lit "1700000100") (lit "100") (lit "200")
              (lit "25") [] eq_refl
              (Hnum (lit "1700000100") eq_refl) (Hnum (lit "100") eq_refl)
              (Hnum (lit "200") eq_refl) (Hnum (lit "25") eq_refl))).
    vm_compute. reflexivity.
  - rewrite (proj1 (@peer_record_fields ascii_rt 1700000200
              (tabbed [lit "peerB"; lit "psk"; lit "(none)"; lit "(none)";
                       lit "never"; []; lit "12x"; lit "0"; lit "more"])
              (lit "peerB") (lit "psk") (lit "(none)") (lit "(none)")
              (lit "never") [] (lit "12x") (lit "0") [lit "more"] eq_refl
              (or_intror eq_refl) (or_intror eq_refl) (or_intror eq_refl)
              (Hnum (lit "0") eq_refl))).
    vm_compute. reflexivity.
Defined.

(** C4 as stated fails: a peer line of eight fields whose handshake
    token is superscript two, a digit for [str.isdigit] that [int]
    rejects, gives no record, neither with the token parsed nor with 0.
    The same for a counter of 4301 nines under the default guard of
    [int]. *)
Lemma unparsable_digit_drops_peer :
  let l := tabbed [lit "peerA"; lit "(none)"; lit "(none)";
                   lit "10.0.0.2/32"; [0xB2%N]; lit "100"; lit "200";
                   lit "0"] in
  let long := tabbed [lit "peerA"; lit "(none)"; lit "(none)";
                      lit "10.0.0.2/32"; lit "0"; repeat 57%N 4301;
                      lit "200"; lit "0"] in
  length (split_on TAB l) = 8 /\
  py_isdigit latin1_rt [0xB2%N] = true /\
  parse_peer latin1_rt 1700000200 l = Raise /\
  vpn_status latin1_rt (lit "wg0")
    (host_with (text_lines_of [iface_line (lit "privB64"); l]) 1700000200) =
  Ok {| type := lit "wireguard"; iface := Some (lit "wg0"); running := true;
        interface := Some {| public_key := lit "pubB64";
                             listen_port := Some 51820%Z |};
        peers := Some [] |} /\
  length (split_on TAB long) = 8 /\
  decimal_token guarded_rt (repeat 57%N 4301) = true /\
  parse_peer guarded_rt 1700000200 long = Raise.
Proof. vm_compute. repeat split; reflexivity. Qed.

Example peer_fields_example :
  parse_peer ascii_rt 1700000200
    (peer_line (lit "peerC") (lit "(none)")) =
  Ok {| peer_key := lit "peerC"; endpoint := []; allowed_ips := lit "10.0.0.2/32";
        latest_handshake := 1700000100; handshake_age_sec := Some 100%Z;
        transfer_rx := 100; transfer_tx := 200;
        persistent_keepalive := Some 25%Z |}.
Proof. vm_compute. reflexivity. Qed.

(** A clock behind the handshake: the age is negative, and reported. *)
Example negative_age :
  option_map handshake_age_sec
    (match parse_peer ascii_rt 1700000000
             (peer_line (lit "peerA") (lit "(none)")) with
     | Ok pr => Some pr
     | Raise => None
     end) = Some (Some (-100)%Z).
Proof. vm_compute. reflexivity. Qed.

(** The dump of the specification: zero handshake, zero keepalive. *)
Example spec_dump :
  vpn_status ascii_rt (lit "wg0")
    (host_with (text_lines_of
       [tabbed [lit "privB64"; lit "pubB64"; lit "51820"; lit "0"];
        tabbed [lit "peerPub"; []; lit "(none)"; lit "10.0.0.2/32";
                lit "0"; lit "100"; lit "200"; lit "0"]]) 1700000200) =
  Ok {| type := lit "wireguard"; iface := Some (lit "wg0"); running := true;
        interface := Some {| public_key := lit "pubB64";
                             listen_port := Some 51820%Z |};
        peers := Some [{| peer_key := lit "peerPub"; endpoint := [];
                          allowed_ips := lit "10.0.0.2/32";
                          latest_handshake := 0; handshake_age_sec := None;
                          transfer_rx := 100; transfer_tx := 200;
                          persistent_keepalive := None |}] |}.
Proof. vm_compute. reflexivity. Qed.

(** One peer line cut to two fields between two well-formed ones. *)
Lemma malformed_lines_skipped_witness :
  exists st pa pc,
    vpn_status ascii_rt (lit "wg0")
      (host_with (dump3 (lit "privB64")) 1700000200) = Ok st /\
    peers st = Some [pa; pc] /\
    peer_key pa = lit "peerA" /\ peer_key pc = lit "peerC".
Proof.
  destruct (@malformed_lines_skipped ascii_rt (lit "wg0")
              (host_with (dump3 (lit "privB64")) 1700000200)
              (iface_line (lit "privB64"))
              [peer_line (lit "peerA") (lit "192.0.2.7:51820"); cut_line;
               peer_line (lit "peerC") (lit "(none)")])
    as (st & prs & Hst & _ & Hp & Hmap & _).
  - vm_compute. reflexivity.
  - eexists. vm_compute. reflexivity.
  - apply Forall_cons; [right; eexists; vm_compute; reflexivity|].
    apply Forall_cons; [left; vm_compute; reflexivity|].
    apply Forall_cons; [right; eexists; vm_compute; reflexivity|].
    apply Forall_nil.
  - vm_compute in Hmap.
    destruct prs as [|pa [|pc [|x prs]]]; try discriminate.
    injection Hmap as Ha Hc.
    exists st, pa, pc. split; [exact Hst|]. split; [exact Hp|].
    rewrite Ha, Hc. split; reflexivity.
Defined.

(** Two outputs with different private keys: one result, with the
    public key and the listen port of the first line. *)
Lemma private_key_not_exposed_witness :
  vpn_status ascii_rt (lit "wg0")
    (Service.host_of (Ok (lit "privB64" ++ dump3_rest)) Raise true 1700000200) =
  vpn_status ascii_rt (lit "wg0")
    (Service.host_of (Ok (lit "0THERkey" ++ dump3_rest)) Raise true 1700000200) /\
  exists st,
    vpn_status ascii_rt (lit "wg0")
      (Service.host_of (Ok (lit "privB64" ++ dump3_rest)) Raise true
                       1700000200) = Ok st /\
    interface st = Some {| public_key := lit "pubB64";
                           listen_port := Some 51820%Z |}.
Proof.
  destruct (private_key_not_exposed ascii_rt (lit "wg0")) as [Hrec Hsame].
  assert (H1 : field_value (lit "privB64")) by (split; reflexivity).
  assert (H2 : field_value (lit "0THERkey")) by (split; reflexivity).
  assert (H3 : after_field dump3_rest) by (left; reflexivity).
  split; [exact (Hsame Raise true 1700000200%Z _ _ _ H1 H2 H3)|].
  eexists. split.
  - apply (Hrec (Service.host_of (Ok (lit "privB64" ++ dump3_rest)) Raise
                                 true 1700000200)
                (iface_line (lit "privB64"))
                [peer_line (lit "peerA") (lit "192.0.2.7:51820"); cut_line;
                 peer_line (lit "peerC") (lit "(none)")]).
    + vm_compute. reflexivity.
    + left. split; vm_compute; reflexivity.
  - vm_compute. reflexivity.
Defined.

(** C9 as stated fails: with an empty private key [try_cmd] strips the
    tab that follows it and every field of the interface line moves
    one place, so the listen port is reported as public key; the
    result is not the one of the same dump with a key.  And a listen
    port written with a digit that [int] rejects gives no record: the
    exception leaves [vpn_status]. *)
Lemma empty_key_shifts_fields :
  let run k :=
    vpn_status ascii_rt (lit "wg0")
      (Service.host_of (Ok (k ++ dump3_rest)) Raise true 1700000200) in
  let shown r :=
    match r with Ok st => interface st | Raise => None end in
  hd 0%N dump3_rest = TAB /\
  shown (run []) =
    Some {| public_key := lit "51820"; listen_port := None |} /\
  shown (run (lit "privB64")) =
    Some {| public_key := lit "pubB64"; listen_port := Some 51820%Z |} /\
  run [] <> run (lit "privB64") /\
  vpn_status latin1_rt (lit "wg0")
    (Service.host_of
       (Ok (tabbed [lit "privB64"; lit "pubB64"; [0xB2%N]; lit "off"]))
       Raise true 1700000200) = Raise.
Proof.
  vm_compute. repeat split; try reflexivity. discriminate.
Qed.

(** A listen port written with a digit that [int] rejects: the
    exception leaves [vpn_status]. *)
Example superscript_port :
  vpn_status latin1_rt (lit "wg0")
    (host_with (tabbed [lit "privB64"; lit "pubB64"; [0xB2%N]; lit "off"])
               1700000200) = Raise.
Proof. vm_compute. reflexivity. Qed.

(** A transfer counter of 5000 digits under the default guard of
    [int]: the line is skipped. *)
Example long_counter_skipped :
  parse_peer guarded_rt 1700000200
    (tabbed [lit "peerA"; lit "(none)"; lit "(none)"; lit "10.0.0.2/32";
             lit "0"; repeat 57%N 5000; lit "200"; lit "0"]) = Raise.
Proof. vm_compute. reflexivity. Qed.

(** A blank first line is no interface line: the next line is. *)
Example blank_first_line :
  option_map (fun st => option_map public_key (interface st))
    (match vpn_status ascii_rt (lit "wg0")
             (host_with (text_lines_of [[TAB; 32%N];
                                        tabbed [lit "A"; lit "B"; lit "7"]])
                        1700000200) with
     | Ok st => Some st
     | Raise => None
     end) = Some (Some (lit "B")).
Proof. vm_compute. reflexivity. Qed.

End VpnFacts.

(** * Further facts about [tail_file] *)

Module TailMore.
Import Tail Service.

Lemma last_slice_incl {A} (n : Z) (l : list A) x :
  In x (last_slice n l) -> In x l.
Proof.
  unfold last_slice. intros H.
  rewrite <- (firstn_skipn (Z.to_nat
    (if (- n <? 0)%Z then Z.max 0 (- n + Z.of_nat (length l))
     else Z.min (- n) (Z.of_nat (length l)))) l).
  apply in_or_app. now right.
Qed.

Lemma last_slice_length {A} (n : Z) (l : list A) :
  (1 <= n)%Z -> length (last_slice n l) <= Z.to_nat n.
Proof.
  intros Hn. rewrite TailFacts.last_slice_last_lines by exact Hn.
  unfold last_lines. rewrite length_skipn. lia.
Qed.

(** [tail_file] returns for every behaviour of the file system. *)
Lemma tail_file_returns fs path n :
  exists bs, tail_file fs path n = Some (last_slice n (text_lines bs)).
Proof.
  unfold tail_file, tail_file_block, tail_body.
  assert (Hnil : last_slice n (text_lines []) = [])
    by (unfold last_slice; cbn; now rewrite skipn_nil).
  destruct (fs path) as [f|]; [|exists []; now rewrite Hnil].
  destruct (f_size f) as [sz|]; [|exists []; now rewrite Hnil].
  destruct (@TailFacts.scan_finishes f 1024 n ltac:(lia) sz
              {| size := sz; data := [] |}) as (out & -> & _);
    [cbn; lia|].
  destruct out as [st|]; [exists (data st) | exists []; now rewrite Hnil].
  reflexivity.
Qed.

(** X1.  For [n >= 1] and whatever the file system does, [tail_file]
    returns a list of at most [n] lines. *)
Theorem tail_at_most_n fs path n :
  (1 <= n)%Z ->
  exists ls, tail_file fs path n = Some ls /\ length ls <= Z.to_nat n.
Proof.
  intros Hn. destruct (tail_file_returns fs path n) as [bs ->].
  eexists. split; [reflexivity|]. now apply last_slice_length.
Qed.

Lemma splitlines_one_line_len :
  forall k s, length s <= k -> Forall one_line (splitlines s).
Proof.
  unfold one_line.
  induction k as [|k IH]; intros s Hk.
  - destruct s; [constructor | simpl in Hk; lia].
  - destruct s as [|c r]; [constructor|]. simpl in Hk.
    rewrite splitlines_cons.
    destruct (is_linebreak c) eqn:Ec.
    + destruct (c =? CR)%N.
      * destruct r as [|c' r']; [repeat constructor|].
        simpl in Hk.
        destruct (c' =? LF)%N; constructor; try reflexivity;
          apply IH; simpl; lia.
      * constructor; [reflexivity | apply IH; lia].
    + pose proof (IH r ltac:(lia)) as Hr.
      destruct (splitlines r) as [|l ls].
      * repeat constructor. simpl. now rewrite Ec.
      * inversion Hr; subst. constructor; [|assumption].
        simpl. rewrite Ec. assumption.
Qed.

(** X2.  No line that [tail_file] returns holds a line boundary (LF,
    CR, VT, FF, FS, GS, RS, NEL, LS, PS), whatever the file holds and
    whatever the file system does. *)
Theorem tail_lines_are_lines fs path n :
  exists ls, tail_file fs path n = Some ls /\ Forall one_line ls.
Proof.
  destruct (tail_file_returns fs path n) as [bs ->].
  eexists. split; [reflexivity|].
  apply Forall_forall. intros l Hl. apply last_slice_incl in Hl.
  pose proof (@splitlines_one_line_len _ (utf8_decode Replace bs) (le_n _)) as H.
  exact (proj1 (Forall_forall _ _) H l Hl).
Qed.

(** X3.  For a negative [n] the loop body is never executed and
    [tail_file] returns the empty list, whatever the file holds. *)
Theorem tail_negative_is_empty fs path n :
  (n < 0)%Z -> tail_file fs path n = Some [].
Proof.
  intros Hn. unfold tail_file, tail_file_block, tail_body.
  destruct (fs path) as [f|]; [|reflexivity].
  destruct (f_size f) as [sz|]; [|reflexivity].
  assert (Hstep : scan_step f 1024 n {| size := sz; data := [] |} = Exit).
  { unfold scan_step, scan_guard. cbn [size data count_nl].
    replace (Z.of_nat 0 <=? n)%Z with false
      by (symmetry; apply Z.leb_gt; lia).
    now rewrite andb_false_r. }
  destruct sz; cbn [scan]; rewrite Hstep; cbn;
    unfold last_slice; now rewrite skipn_nil.
Qed.

Lemma utf8_scan_nonempty bs : bs <> [] -> utf8_scan bs <> [].
Proof.
  destruct bs as [|b1 r1]; [congruence|]. intros _.
  rewrite utf8_scan_cons.
  repeat match goal with
  | |- context [if ?c then _ else _] => destruct c
  | |- context [match ?l with [] => _ | _ :: _ => _ end] => destruct l
  end; discriminate.
Qed.

Lemma text_lines_nonempty bs : bs <> [] -> text_lines bs <> [].
Proof.
  intros H. unfold text_lines. rewrite utf8_decode_replace.
  apply utf8_scan_nonempty in H.
  destruct (utf8_scan bs) as [|t ts]; [congruence|].
  cbn [map]. apply splitlines_nonempty.
Qed.

(** X4.  For [n = 0] the result is not empty: on a readable file that
    is not empty the scan stops with a suffix [data] of the file, not
    empty, and [tail_file] returns every line of it ([lines[-0:]] is
    the whole list), at least one. *)
Theorem tail_zero_is_not_empty fs path content :
  fs path = Ok (file_of content) -> content <> [] ->
  exists st,
    scan (length content) (file_of content) 1024 0
         {| size := length content; data := [] |} = Some (Ok st) /\
    data st = skipn (size st) content /\
    data st <> [] /\
    tail_file fs path 0 = Some (text_lines (data st)) /\
    text_lines (data st) <> [].
Proof.
  intros Hfs Hne. unfold tail_file, tail_file_block, tail_body.
  rewrite Hfs. cbn [f_size file_of].
  destruct (@TailFacts.scan_file_of content 1024 0 ltac:(lia) (length content)
              {| size := length content; data := [] |})
    as (st & Hscan & Hle & Hd & Hex); cbn [size data];
    [lia | lia | now rewrite skipn_all |].
  exists st. rewrite Hscan. cbn [option_map try_except].
  assert (Hdata : data st <> []).
  { destruct Hex as [H0 | Hc].
    - rewrite Hd, H0. exact Hne.
    - intros E. rewrite E in Hc. cbn in Hc. lia. }
  split; [reflexivity|]. split; [exact Hd|]. split; [exact Hdata|].
  split; [|now apply text_lines_nonempty].
  unfold last_slice. cbn.
  replace (Z.to_nat (Z.min 0 (Z.of_nat (length (text_lines (data st))))))
    with 0 by lia.
  reflexivity.
Qed.

Lemma count_nl_skipn k d : count_nl (skipn k d) <= count_nl d.
Proof.
  revert k. induction d as [|b d IH]; intros [|k]; cbn; try lia.
  specialize (IH k). destruct (Byte.eqb b x0a); lia.
Qed.

(** On a readable file the loop stops within one block of the point
    where [data] holds more than [n] newline bytes. *)
Lemma scan_one_block_more content block n :
  1 <= block -> (0 <= n)%Z ->
  forall fuel st,
  size st <= fuel -> size st <= length content ->
  data st = skipn (size st) content ->
  (Z.of_nat (count_nl (skipn block (data st))) <= n)%Z ->
  exists st', scan fuel (file_of content) block n st = Some (Ok st') /\
    data st' = skipn (size st') content /\
    (Z.of_nat (count_nl (skipn block (data st'))) <= n)%Z.
Proof.
  intros Hb Hn. induction fuel as [|fuel IH]; intros st Hf Hl Hd Hc.
  - simpl. destruct (scan_step _ block n st) as [st'| |] eqn:E.
    + apply TailFacts.scan_step_continue in E. lia.
    + exists st. auto.
    + unfold scan_step in E. simpl in E.
      destruct (scan_guard n st); discriminate.
  - simpl. destruct (scan_step _ block n st) as [st'| |] eqn:E.
    + pose proof (TailFacts.scan_step_continue _ _ _ _ E) as [Hpos Hsz].
      unfold scan_step in E. simpl in E.
      destruct (scan_guard n st) eqn:G; [|discriminate].
      injection E as <-. cbn [size data] in *.
      set (step := Nat.min block (size st)) in *.
      assert (Hchunk : firstn step (skipn (size st - step) content) ++ data st
                       = skipn (size st - step) content).
      { rewrite Hd.
        replace (skipn (size st) content)
          with (skipn step (skipn (size st - step) content)).
        - apply firstn_skipn.
        - rewrite skipn_skipn. f_equal. subst step. lia. }
      apply IH; cbn [size data]; try lia; [exact Hchunk|].
      unfold scan_guard in G. apply andb_prop in G as [_ G].
      apply Z.leb_le in G.
      rewrite skipn_app.
      assert (Hlen : length (firstn step (skipn (size st - step) content)) = step).
      { rewrite length_firstn, length_skipn. subst step. lia. }
      rewrite Hlen, skipn_all2 by (rewrite Hlen; subst step; lia).
      rewrite app_nil_l.
      pose proof (count_nl_skipn (block - step) (data st)). lia.
    + exists st. auto.
    + unfold scan_step in E. simpl in E.
      destruct (scan_guard n st); discriminate.
Qed.

(** X5.  On a readable file and for [n >= 0] the backward scan reads a
    suffix of the file and stops within one block: without its first
    1024 bytes, what was read holds at most [n] newline bytes. *)
Theorem scan_reads_one_block_more content n :
  (0 <= n)%Z ->
  exists st,
    scan (length content) (file_of content) 1024 n
         {| size := length content; data := [] |} = Some (Ok st) /\
    data st = skipn (size st) content /\
    (Z.of_nat (count_nl (skipn 1024 (data st))) <= n)%Z.
Proof.
  intros Hn.
  apply scan_one_block_more; cbn [size data]; try lia.
  - now rewrite skipn_all.
  - cbn. lia.
Qed.

Import Samples.

Lemma tail_at_most_n_witness :
  exists ls, tail_file (fun _ => Ok (faulty_file (sample_log 1000) 2000)) [] 3
             = Some ls /\ length ls <= 3.
Proof.
  exact (@tail_at_most_n (fun _ => Ok (faulty_file (sample_log 1000) 2000))
           [] 3 ltac:(lia)).
Defined.

Lemma tail_negative_is_empty_witness :
  tail_file (one_file (sample_log 1000)) [] (-2) = Some [].
Proof.
  exact (@tail_negative_is_empty (one_file (sample_log 1000)) [] (-2)
           ltac:(lia)).
Defined.

(** A log of 1000 lines: with [n = 0] the 205 lines of the last blocks
    come back. *)
Lemma tail_zero_is_not_empty_witness :
  exists ls, tail_file (one_file (sample_log 1000)) [] 0 = Some ls /\
             length ls = 205 /\ ls <> [].
Proof.
  destruct (@tail_zero_is_not_empty (one_file (sample_log 1000)) []
              (sample_log 1000) eq_refl)
    as (st & _ & _ & _ & Ht & Hne).
  - vm_compute. discriminate.
  - exists (text_lines (data st)). split; [exact Ht|]. split; [|exact Hne].
    assert (E : option_map (@length str)
                  (tail_file (one_file (sample_log 1000)) [] 0) = Some 205)
      by (vm_compute; reflexivity).
    rewrite Ht in E. cbn [option_map] in E. now injection E.
Defined.

(** With [n = 0] the last block is returned, cut in the middle of a
    line. *)
Example tail_zero_partial_line :
  option_map (fun ls => (length ls, hd [] ls))
    (tail_file (one_file (sample_log 1000)) [] 0)
  = Some (205, [55; 57; 53]%N).
Proof. vm_compute. reflexivity. Qed.

Lemma scan_reads_one_block_more_witness :
  exists st,
    scan (length (sample_log 1000)) (file_of (sample_log 1000)) 1024 50
         {| size := length (sample_log 1000); data := [] |} = Some (Ok st) /\
    data st = skipn (size st) (sample_log 1000) /\
    (Z.of_nat (count_nl (skipn 1024 (data st))) <= 50)%Z.
Proof.
  exact (@scan_reads_one_block_more (sample_log 1000) 50 ltac:(lia)).
Defined.

End TailMore.

(** * Further facts about [bedrock_status] and [minecraft_info] *)

Module BedrockMore.
Import Bedrock Service.

Lemma int_field_nonneg rt parts i v :
  int_field rt parts i = Ok v -> (0 <= v)%Z.
Proof.
  unfold int_field.
  destruct (i <? length parts).
  - destruct (getitem parts i) as [p|]; cbn [bind]; [|discriminate].
    destruct (py_isdigit rt p); cbn [bind].
    + apply VpnFacts.py_int_nonneg.
    + intros [= <-]. lia.
  - cbn [bind]. intros [= <-]. lia.
Qed.

Lemma not_pong_false data : not_pong data = false -> firstn 1 data = [x1c].
Proof.
  destruct data as [|b r]; [discriminate|]. cbn.
  destruct (Byte.eqb b x1c) eqn:E; [|discriminate].
  apply Byte.byte_dec_bl in E. now subst.
Qed.

Lemma not_pong_pong data : firstn 1 data = [x1c] -> not_pong data = false.
Proof.
  destruct data as [|b r]; [discriminate|]. intros [= ->]. reflexivity.
Qed.

(** The replies [bedrock_reply] can give. *)
Lemma bedrock_reply_cases rt data r :
  bedrock_reply rt data = Ok r ->
  (not_pong data = true /\ r = offline) \/
  (not_pong data = false /\ find magic data = None /\ r = online_only) \/
  (not_pong data = false /\
   exists idx m v o mx,
     find magic data = Some idx /\
     m = nth 1 (pong_fields data idx) (lit "Minecraft Bedrock") /\
     v = nth 3 (pong_fields data idx) (lit "Bedrock") /\
     int_field rt (pong_fields data idx) 4 = Ok o /\
     int_field rt (pong_fields data idx) 5 = Ok mx /\
     r = {| online := true; motd := Some m; version := Some v;
            players := Some []; player_count := Some o;
            max_players := Some mx |}).
Proof.
  unfold bedrock_reply.
  destruct (not_pong data); [intros [= <-]; now left|].
  destruct (find magic data) as [idx|];
    [|intros [= <-]; right; left; auto].
  rewrite !BedrockFacts.field_or_nth. cbn [bind].
  destruct (int_field rt _ 4) as [o|] eqn:E4; [|discriminate].
  destruct (int_field rt _ 5) as [mx|] eqn:E5; [|discriminate].
  cbn [bind]. intros [= <-]. right; right. split; [reflexivity|].
  exists idx. do 4 eexists. repeat split; eauto.
Qed.

Lemma bedrock_status_cases rt env host port :
  bedrock_status rt env host port = offline \/
  bedrock_status rt env host port = online_only \/
  exists m v o mx,
    bedrock_status rt env host port =
      {| online := true; motd := Some m; version := Some v;
         players := Some []; player_count := Some o;
         max_players := Some mx |} /\
    (0 <= o)%Z /\ (0 <= mx)%Z.
Proof.
  unfold bedrock_status, bedrock_exec.
  destruct (sock_open env) as [[]|]; cbn [bind]; [|now left].
  destruct (sock_settimeout env) as [[]|]; cbn [bind]; [|now left].
  destruct (build_ping env) as [payload|]; [|now left].
  destruct (sock_sendto env payload host port); [|now left].
  cbn [snd].
  destruct (sock_recvfrom env) as [data|]; cbn [bind]; [|now left].
  destruct (sock_close env); cbn [bind]; [|now left].
  destruct (bedrock_reply rt data) as [r|] eqn:E; [|now left].
  cbn [try_except].
  destruct (bedrock_reply_cases _ _ E)
    as [[_ ->] | [(_ & _ & ->) | (_ & idx & m & v & o & mx & _ & _ & _ & H4 & H5 & ->)]];
    [now left | right; now left |].
  right; right. exists m, v, o, mx. split; [reflexivity|].
  split; eapply int_field_nonneg; eauto.
Qed.

(** X6.  The result has one of three shapes: not online and no other
    key; online and no other key; online with all five other keys, the
    player list empty and both counts non-negative. *)
Theorem ping_result_shape rt env host port :
  bedrock_status rt env host port =
    {| online := false; motd := None; version := None; players := None;
       player_count := None; max_players := None |} \/
  bedrock_status rt env host port =
    {| online := true; motd := None; version := None; players := None;
       player_count := None; max_players := None |} \/
  exists m v o mx,
    bedrock_status rt env host port =
      {| online := true; motd := Some m; version := Some v;
         players := Some []; player_count := Some o;
         max_players := Some mx |} /\
    (0 <= o)%Z /\ (0 <= mx)%Z.
Proof. exact (bedrock_status_cases rt env host port). Qed.

(** X7.  A server is reported online only if the ping was sent, to
    [(host, port)] and nothing else, and a datagram that starts with
    0x1C came back. *)
Theorem online_needs_pong rt env host port :
  online (bedrock_status rt env host port) = true ->
  exists payload data,
    bedrock_sent rt env host port =
      [{| dg_payload := payload; dg_host := host; dg_port := port |}] /\
    build_ping env = Ok payload /\
    sock_recvfrom env = Ok data /\
    firstn 1 data = [x1c].
Proof.
  unfold bedrock_status, bedrock_sent, bedrock_exec.
  destruct (sock_open env) as [[]|]; cbn [bind]; [|discriminate].
  destruct (sock_settimeout env) as [[]|]; cbn [bind]; [|discriminate].
  destruct (build_ping env) as [payload|]; [|discriminate].
  destruct (sock_sendto env payload host port); [|discriminate].
  cbn [snd fst].
  destruct (sock_recvfrom env) as [data|]; cbn [bind]; [|discriminate].
  destruct (sock_close env); cbn [bind]; [|discriminate].
  intros H. exists payload, data. repeat split.
  apply not_pong_false.
  unfold bedrock_reply in H.
  destruct (not_pong data); [discriminate | reflexivity].
Qed.

(** ** Round trip *)

Lemma bv_ascii_byte c :
  (c < 256)%N ->
  bv (match Byte.of_N c with Some b => b | None => x00 end) = c.
Proof.
  intros H. unfold bv. destruct (Byte.of_N c) as [b|] eqn:E.
  - now apply Byte.to_of_N.
  - apply Byte.of_N_None_iff in E. lia.
Qed.

Lemma utf8_scan_ascii s :
  forallb (fun c => (c <? 128)%N) s = true ->
  utf8_scan (ascii_bytes s) = map Some s.
Proof.
  induction s as [|c s IH]; intros H; [reflexivity|].
  simpl in H. apply andb_prop in H as [Hc Hs].
  cbn [ascii_bytes map]. rewrite utf8_scan_cons.
  apply N.ltb_lt in Hc as Hc'.
  rewrite bv_ascii_byte by lia. rewrite Hc.
  fold (ascii_bytes s). now rewrite (IH Hs).
Qed.

Lemma utf8_decode_ascii h s :
  forallb (fun c => (c <? 128)%N) s = true ->
  utf8_decode h (ascii_bytes s) = s.
Proof.
  intros H. unfold utf8_decode. rewrite (utf8_scan_ascii _ H).
  clear H. induction s; simpl; congruence.
Qed.

Lemma lstrip_none p s :
  forallb (fun c => negb (p c)) s = true -> lstrip p s = s.
Proof.
  destruct s as [|c s]; [reflexivity|]. simpl.
  intros H. apply andb_prop in H as [Hc _].
  apply negb_true_iff in Hc. now rewrite Hc.
Qed.

Lemma strip_none p s :
  forallb (fun c => negb (p c)) s = true -> strip p s = s.
Proof.
  intros H. unfold strip, rstrip. rewrite (lstrip_none _ _ H).
  rewrite lstrip_none; [apply rev_involutive|].
  apply forallb_forall. intros c Hc. apply in_rev in Hc.
  exact (proj1 (forallb_forall _ _) H c Hc).
Qed.

Lemma join_cons2 sep f g r :
  join sep (f :: g :: r) = f ++ sep :: join sep (g :: r).
Proof. reflexivity. Qed.

(** Splitting what was joined gives the fields back. *)
Lemma split_on_join sep fs :
  fs <> [] ->
  Forall (fun f => forallb (fun c => negb (c =? sep)%N) f = true) fs ->
  split_on sep (join sep fs) = fs.
Proof.
  induction fs as [|f fs IH]; [congruence|]. intros _ H.
  inversion H as [|? ? Hf Hfs]; subst.
  destruct fs as [|g r].
  - cbn [join]. now apply split_on_whole.
  - rewrite join_cons2, split_on_prefix by exact Hf.
    f_equal. apply IH; [discriminate | exact Hfs].
Qed.

Lemma plain_field_parts f :
  plain_field f ->
  forallb (fun c => negb (c =? SEMI)%N) f = true /\
  forallb (fun c => (c <? 128)%N) f = true /\
  forallb (fun c => negb (NUL =? c)%N) f = true.
Proof.
  unfold plain_field. intros H.
  repeat split; apply forallb_forall; intros c Hc;
    apply (proj1 (forallb_forall _ _) H) in Hc;
    apply andb_prop in Hc as [Hc H3]; apply andb_prop in Hc as [H1 H2];
    auto.
  apply N.ltb_lt in H1. apply negb_true_iff. apply N.eqb_neq.
  unfold NUL. lia.
Qed.

Lemma join_forallb (q : N -> bool) sep fs :
  q sep = true ->
  Forall (fun f => forallb q f = true) fs ->
  forallb q (join sep fs) = true.
Proof.
  intros Hsep. induction 1 as [|f fs Hf Hfs IH]; [reflexivity|].
  destruct fs as [|g r]; [exact Hf|].
  rewrite join_cons2, forallb_app, Hf. cbn [forallb andb].
  rewrite Hsep. cbn [andb]. exact IH.
Qed.

(** X8.  Round trip of the framing: a pong made of a head that starts
    with 0x1C, the magic, and the ASCII fields [f0;f1;f2;f3;f4;f5;...]
    joined by [;], where the magic first occurs after the head and
    [f4], [f5] are the digit strings of [o] and [mx], is read back as
    exactly these fields: motd [f1], version [f3], player count [o],
    maximum [mx]. *)
Theorem pong_round_trip rt pre f0 f1 f2 f3 f4 f5 more o mx :
  let fs := f0 :: f1 :: f2 :: f3 :: f4 :: f5 :: more in
  let data := pre ++ magic ++ ascii_bytes (join SEMI fs) in
  Forall plain_field fs ->
  firstn 1 pre = [x1c] ->
  find magic data = Some (length pre) ->
  py_isdigit rt f4 = true -> py_int rt f4 = Ok o ->
  py_isdigit rt f5 = true -> py_int rt f5 = Ok mx ->
  pong_fields data (length pre) = fs /\
  bedrock_reply rt data =
    Ok {| online := true; motd := Some f1; version := Some f3;
          players := Some []; player_count := Some o;
          max_players := Some mx |}.
Proof.
  intros fs data Hplain Hhead Hfind Hd4 Hi4 Hd5 Hi5.
  assert (Hfields : pong_fields data (length pre) = fs).
  { unfold pong_fields, server_id. subst data.
    rewrite BedrockFacts.skipn_past.
    rewrite utf8_decode_ascii.
    - rewrite strip_none.
      + apply split_on_join; [discriminate|].
        eapply Forall_impl; [|exact Hplain].
        intros f Hf. now apply plain_field_parts.
      + apply (join_forallb (fun c => negb (NUL =? c)%N)); [reflexivity|].
        eapply Forall_impl; [|exact Hplain].
        intros f Hf. now apply plain_field_parts.
    - apply (join_forallb (fun c => (c <? 128)%N)); [reflexivity|].
      eapply Forall_impl; [|exact Hplain].
      intros f Hf. now apply plain_field_parts. }
  split; [exact Hfields|].
  unfold bedrock_reply.
  rewrite not_pong_pong.
  - rewrite Hfind, Hfields, !BedrockFacts.field_or_nth. cbn [bind].
    unfold int_field. subst fs. cbn [length Nat.ltb Nat.leb getitem nth_error bind nth].
    rewrite Hd4, Hd5. cbn [bind]. rewrite Hi4, Hi5. reflexivity.
  - subst data. destruct pre as [|b pre]; [discriminate|].
    exact Hhead.
Qed.

(** X9.  A pong with the magic whose count fields are missing or not
    purely numeric gives the counts 0, and the placeholders for a
    missing motd or version. *)
Theorem pong_defaults rt data idx :
  firstn 1 data = [x1c] ->
  find magic data = Some idx ->
  (forall t, nth_error (pong_fields data idx) 4 = Some t ->
             py_isdigit rt t = false) ->
  (forall t, nth_error (pong_fields data idx) 5 = Some t ->
             py_isdigit rt t = false) ->
  bedrock_reply rt data =
    Ok {| online := true;
          motd := Some (nth 1 (pong_fields data idx) (lit "Minecraft Bedrock"));
          version := Some (nth 3 (pong_fields data idx) (lit "Bedrock"));
          players := Some []; player_count := Some 0%Z;
          max_players := Some 0%Z |}.
Proof.
  intros Hhead Hfind H4 H5. unfold bedrock_reply.
  rewrite (not_pong_pong _ Hhead), Hfind, !BedrockFacts.field_or_nth.
  cbn [bind].
  assert (Hz : forall i,
    (forall t, nth_error (pong_fields data idx) i = Some t ->
               py_isdigit rt t = false) ->
    int_field rt (pong_fields data idx) i = Ok 0%Z).
  { intros i Hi. unfold int_field, getitem.
    destruct (i <? length (pong_fields data idx)) eqn:El; [|reflexivity].
    apply Nat.ltb_lt in El.
    destruct (nth_error (pong_fields data idx) i) as [t|] eqn:E.
    - cbn [bind]. now rewrite (Hi t eq_refl).
    - apply nth_error_None in E. lia. }
  rewrite (Hz 4 H4), (Hz 5 H5). reflexivity.
Qed.

(** X10.  A count field made of digits that [int] rejects makes the
    probe report the server as not online, although a valid pong
    arrived. *)
Theorem rejected_digit_is_offline rt env host port data idx i t :
  delivers env host port data ->
  firstn 1 data = [x1c] ->
  find magic data = Some idx ->
  i = 4 \/ i = 5 ->
  nth_error (pong_fields data idx) i = Some t ->
  py_isdigit rt t = true ->
  py_int rt t = Raise ->
  bedrock_status rt env host port =
    {| online := false; motd := None; version := None; players := None;
       player_count := None; max_players := None |}.
Proof.
  intros Hd Hhead Hfind Hi Ht Hdig Hint.
  rewrite (BedrockFacts.bedrock_status_delivered rt Hd).
  unfold bedrock_reply.
  rewrite (not_pong_pong _ Hhead), Hfind, !BedrockFacts.field_or_nth.
  cbn [bind].
  assert (Hr : int_field rt (pong_fields data idx) i = Raise).
  { unfold int_field.
    assert (Hlt : i < length (pong_fields data idx))
      by (apply nth_error_Some; congruence).
    apply Nat.ltb_lt in Hlt. rewrite Hlt.
    rewrite (VpnFacts.getitem_nth _ _ Ht). cbn [bind].
    rewrite Hdig. cbn [bind]. exact Hint. }
  destruct Hi as [-> | ->].
  - rewrite Hr. reflexivity.
  - rewrite Hr. destruct (int_field rt _ 4); reflexivity.
Qed.

(** X20.  The reply is read through its first byte and the bytes after
    the first occurrence of the magic only: the echoed time and the
    server identifier before the magic are not looked at. *)
Theorem pong_head_ignored rt pre pre' post :
  firstn 1 pre = [x1c] -> firstn 1 pre' = [x1c] ->
  find magic (pre ++ magic ++ post) = Some (length pre) ->
  find magic (pre' ++ magic ++ post) = Some (length pre') ->
  bedrock_reply rt (pre ++ magic ++ post) =
    bedrock_reply rt (pre' ++ magic ++ post).
Proof.
  intros H1 H1' Hf Hf'. unfold bedrock_reply.
  rewrite (@not_pong_pong (pre ++ magic ++ post)),
          (@not_pong_pong (pre' ++ magic ++ post)).
  - rewrite Hf, Hf'. unfold pong_fields, server_id.
    now rewrite !BedrockFacts.skipn_past.
  - destruct pre' as [|b r]; [discriminate | exact H1'].
  - destruct pre as [|b r]; [discriminate | exact H1].
Qed.

(** ** [minecraft_info] *)

(** X11.  [minecraft_info] raises exactly when the container query
    raises something else than [CalledProcessError].  Otherwise the
    container state is the stripped output, or ["unknown"]; when it is
    ["running"] the server is reported online, with the placeholder
    values if the ping had failed; in every other case the result of the
    ping is passed on unchanged. *)
Theorem minecraft_fallback rt docker env host port :
  match docker with
  | OtherError => minecraft_info rt docker env host port = Raise
  | _ =>
    exists s,
      minecraft_info rt docker env host port =
        Ok {| container :=
                match docker with
                | Output out => strip is_space out
                | _ => lit "unknown"
                end;
              server := s |} /\
      match docker with
      | Output out =>
        (strip is_space out = lit "running" ->
         online s = true /\
         (online (bedrock_status rt env host port) = false ->
          s = {| online := true; motd := Some (lit "Minecraft Bedrock");
                 version := Some (lit "Bedrock"); players := Some [];
                 player_count := Some 0%Z; max_players := Some 0%Z |}) /\
         (online (bedrock_status rt env host port) = true ->
          s = bedrock_status rt env host port)) /\
        (strip is_space out <> lit "running" ->
         s = bedrock_status rt env host port)
      | _ => s = bedrock_status rt env host port
      end
  end.
Proof.
  unfold minecraft_info.
  destruct docker as [out| |]; cbn [bind]; [| |reflexivity].
  - eexists. split; [reflexivity|]. split.
    + intros Hrun. rewrite Hrun.
      rewrite (proj2 (VpnFacts.str_eqb_eq _ _) eq_refl), andb_true_r.
      destruct (bedrock_status_cases rt env host port)
        as [-> | [-> | (m & v & o & mx & -> & _)]]; cbn;
        repeat split; auto; discriminate.
    + intros Hne.
      destruct (str_eqb (strip is_space out) (lit "running")) eqn:E.
      * apply VpnFacts.str_eqb_eq in E. contradiction.
      * now rewrite andb_false_r.
  - eexists. split; [reflexivity|].
    replace (str_eqb (lit "unknown") (lit "running")) with false
      by reflexivity.
    now rewrite andb_false_r.
Qed.

Import Samples.

Lemma online_needs_pong_witness :
  exists payload data,
    bedrock_sent ascii_rt (good_net pong_good) localhost 19132 =
      [{| dg_payload := payload; dg_host := localhost; dg_port := 19132 |}] /\
    build_ping (good_net pong_good) = Ok payload /\
    sock_recvfrom (good_net pong_good) = Ok data /\
    firstn 1 data = [x1c].
Proof.
  apply (@online_needs_pong ascii_rt (good_net pong_good) localhost 19132).
  vm_compute. reflexivity.
Defined.

(** [MCPE;Dedicated Server;527;1.19.1;3;10] comes back as it was sent. *)
Lemma pong_round_trip_witness :
  bedrock_reply ascii_rt
    (pong_head ++ magic ++
     ascii_bytes (join SEMI [lit "MCPE"; lit "Dedicated Server"; lit "527";
                             lit "1.19.1"; lit "3"; lit "10"])) =
  Ok {| online := true; motd := Some (lit "Dedicated Server");
        version := Some (lit "1.19.1"); players := Some [];
        player_count := Some 3%Z; max_players := Some 10%Z |}.
Proof.
  refine (proj2 (@pong_round_trip ascii_rt pong_head
                   (lit "MCPE") (lit "Dedicated Server") (lit "527")
                   (lit "1.19.1") (lit "3") (lit "10") [] 3 10
                   _ _ _ _ _ _ _)).
  - repeat (apply Forall_cons; [reflexivity|]). apply Forall_nil.
  - reflexivity.
  - vm_compute. reflexivity.
  - reflexivity.
  - reflexivity.
  - reflexivity.
  - reflexivity.
Defined.

(** A pong with two fields only. *)
Lemma pong_defaults_witness :
  bedrock_reply ascii_rt
    (pong_head ++ magic ++ ascii_bytes (lit "MCPE;Hello")) =
  Ok {| online := true; motd := Some (lit "Hello");
        version := Some (lit "Bedrock"); players := Some [];
        player_count := Some 0%Z; max_players := Some 0%Z |}.
Proof.
  refine (@pong_defaults ascii_rt
            (pong_head ++ magic ++ ascii_bytes (lit "MCPE;Hello")) 17
            _ _ _ _).
  - reflexivity.
  - vm_compute. reflexivity.
  - intros t H. vm_compute in H. discriminate.
  - intros t H. vm_compute in H. discriminate.
Defined.

(** A superscript two as player count. *)
Lemma rejected_digit_is_offline_witness :
  bedrock_status latin1_rt
    (good_net (pong_head ++ magic ++
               [x4d; x3b; x41; x3b; x31; x3b; x32; x3b; xc2; xb2]))
    localhost 19132 =
  {| online := false; motd := None; version := None; players := None;
     player_count := None; max_players := None |}.
Proof.
  refine (@rejected_digit_is_offline latin1_rt _ localhost 19132
            (pong_head ++ magic ++
             [x4d; x3b; x41; x3b; x31; x3b; x32; x3b; xc2; xb2])
            17 4 [0xB2%N] _ _ _ _ _ _ _).
  - apply BedrockFacts.good_net_delivers.
  - reflexivity.
  - vm_compute. reflexivity.
  - now left.
  - vm_compute. reflexivity.
  - reflexivity.
  - reflexivity.
Defined.

(** The same text behind two different heads. *)
Lemma pong_head_ignored_witness :
  bedrock_reply ascii_rt (pong_head ++ magic ++ pong_text) =
  bedrock_reply ascii_rt
    (([x1c] ++ be_bytes 8 5 ++ be_bytes 8 6) ++ magic ++ pong_text).
Proof.
  apply (@pong_head_ignored ascii_rt pong_head
           ([x1c] ++ be_bytes 8 5 ++ be_bytes 8 6) pong_text);
    vm_compute; reflexivity.
Defined.

(** The container runs and the ping times out. *)
Example minecraft_running_silent :
  minecraft_info ascii_rt (Output (lit "running" ++ [LF])) silent_net
    localhost 19132 =
  Ok {| container := lit "running";
        server := {| online := true; motd := Some (lit "Minecraft Bedrock");
                     version := Some (lit "Bedrock"); players := Some [];
                     player_count := Some 0%Z; max_players := Some 0%Z |} |}.
Proof. vm_compute. reflexivity. Qed.

(** The container runs and the reply lacks the magic: online, and no
    placeholder is filled in. *)
Example minecraft_running_bad_magic :
  minecraft_info ascii_rt (Output (lit "running")) (good_net pong_bad_magic)
    localhost 19132 =
  Ok {| container := lit "running"; server := online_only |}.
Proof. vm_compute. reflexivity. Qed.

End BedrockMore.

(** * Further facts about [vpn_status] *)

Module VpnMore.
Import Vpn Service.

Lemma num_field_nonneg rt p i v : num_field rt p i = Ok v -> (0 <= v)%Z.
Proof.
  unfold num_field.
  destruct (getitem p i) as [t|]; cbn [bind]; [|discriminate].
  destruct (py_isdigit rt t); cbn [bind].
  - apply VpnFacts.py_int_nonneg.
  - intros [= <-]. lia.
Qed.

Lemma parse_peer_ok rt now l pr :
  parse_peer rt now l = Ok pr -> peer_ok now pr.
Proof.
  unfold parse_peer.
  destruct (getitem _ 0) as [pk|]; cbn [bind]; [|discriminate].
  destruct (none_field _ 2) as [e|]; cbn [bind]; [|discriminate].
  destruct (none_field _ 3) as [a|]; cbn [bind]; [|discriminate].
  destruct (num_field rt _ 4) as [hs|] eqn:E4; cbn [bind]; [|discriminate].
  destruct (num_field rt _ 5) as [rx|] eqn:E5; cbn [bind]; [|discriminate].
  destruct (num_field rt _ 6) as [tx|] eqn:E6; cbn [bind]; [|discriminate].
  destruct (num_field rt _ 7) as [keep|] eqn:E7; cbn [bind]; [|discriminate].
  apply num_field_nonneg in E4, E5, E6, E7.
  intros [= <-]. unfold peer_ok. cbn.
  repeat split; auto.
  - intros k. destruct (keep =? 0)%Z eqn:E; [discriminate|].
    apply Z.eqb_neq in E. intros [= <-]. lia.
  - destruct (hs =? 0)%Z eqn:E; [now apply Z.eqb_eq in E | discriminate].
  - intros ->. reflexivity.
  - intros a'. destruct (hs =? 0)%Z; [discriminate|].
    now intros [= <-].
Qed.

Lemma peers_loop_ok rt now ls :
  forall acc, Forall (peer_ok now) acc ->
  Forall (peer_ok now) (peers_loop rt now ls acc) /\
  length (peers_loop rt now ls acc) <= length acc + length ls.
Proof.
  induction ls as [|l ls IH]; intros acc Hacc; simpl.
  - split; [exact Hacc | lia].
  - destruct (parse_peer rt now l) as [pr|] eqn:E.
    + destruct (IH (acc ++ [pr])) as [H1 H2].
      * apply Forall_app. split; [exact Hacc|].
        constructor; [|constructor]. eapply parse_peer_ok; eauto.
      * split; [exact H1|]. rewrite length_app in H2. simpl in H2. lia.
    + destruct (IH acc Hacc) as [H1 H2]. split; [exact H1 | lia].
Qed.

(** X12.  Every peer of a result satisfies the record's invariant:
    handshake time and byte counters are not negative, a keepalive that
    is present is positive, and the handshake age is present exactly
    when the handshake time is not zero and then is [now] minus that
    time.  There are at most as many peers as lines after the first. *)
Theorem peers_invariant rt name h st prs :
  vpn_status rt name h = Ok st ->
  peers st = Some prs ->
  Forall (peer_ok (now h)) prs /\
  length prs <= length (dump_lines (wg_dump h)) - 1.
Proof.
  unfold vpn_status.
  destruct (negb (truthy (wg_dump h))).
  - destruct (has_systemctl h); intros [= <-]; cbn; intros Hp;
      [|discriminate].
    injection Hp as <-. split; [constructor | cbn; lia].
  - destruct (dump_lines (wg_dump h)) as [|l0 rest].
    + intros [= <-]. cbn. intros [= <-]. split; [constructor | cbn; lia].
    + destruct (parse_iface rt l0); cbn [bind]; [|discriminate].
      intros [= <-]. cbn. intros [= <-].
      destruct (@peers_loop_ok rt (now h) rest [] (Forall_nil _)) as [H1 H2].
      split; [exact H1 | cbn in *; lia].
Qed.

Lemma peers_loop_congr rt now ls ls' :
  map (parse_peer rt now) ls = map (parse_peer rt now) ls' ->
  forall acc, peers_loop rt now ls acc = peers_loop rt now ls' acc.
Proof.
  revert ls'. induction ls as [|l ls IH]; intros [|l' ls'] H acc;
    try discriminate; [reflexivity|].
  cbn [map] in H. injection H as Hl Hls. simpl. rewrite Hl.
  destruct (parse_peer rt now l'); now apply IH.
Qed.

(** A peer line is read through its fields 0 and 2 to 7 only. *)
Lemma parse_peer_fields rt now l l' p0 p1 p1' p2 p3 p4 p5 p6 p7 rest rest' :
  split_on TAB l = p0 :: p1 :: p2 :: p3 :: p4 :: p5 :: p6 :: p7 :: rest ->
  split_on TAB l' = p0 :: p1' :: p2 :: p3 :: p4 :: p5 :: p6 :: p7 :: rest' ->
  parse_peer rt now l = parse_peer rt now l'.
Proof.
  intros H H'. unfold parse_peer. rewrite H, H'. reflexivity.
Qed.

(** X13.  The preshared key (field 1) of a peer line and whatever
    follows its eighth field do not reach the result: two dumps that
    differ only there, in one peer line, give the same result. *)
Theorem preshared_key_not_exposed rt name h h' l0 a b l l'
  p0 p1 p1' p2 p3 p4 p5 p6 p7 rest rest' :
  dump_lines (wg_dump h) = l0 :: a ++ l :: b ->
  dump_lines (wg_dump h') = l0 :: a ++ l' :: b ->
  now h = now h' ->
  split_on TAB l = p0 :: p1 :: p2 :: p3 :: p4 :: p5 :: p6 :: p7 :: rest ->
  split_on TAB l' = p0 :: p1' :: p2 :: p3 :: p4 :: p5 :: p6 :: p7 :: rest' ->
  vpn_status rt name h = vpn_status rt name h'.
Proof.
  intros Hd Hd' Hnow Hl Hl'. unfold vpn_status.
  rewrite (@VpnFacts.dump_lines_nonempty (wg_dump h))
    by (rewrite Hd; discriminate).
  rewrite (@VpnFacts.dump_lines_nonempty (wg_dump h'))
    by (rewrite Hd'; discriminate).
  cbn [negb]. rewrite Hd, Hd', <- Hnow.
  rewrite (@peers_loop_congr rt (now h) (a ++ l :: b) (a ++ l' :: b));
    [reflexivity|].
  rewrite !map_app. cbn [map].
  now rewrite (@parse_peer_fields rt (now h) _ _ _ _ _ _ _ _ _ _ _ _ _ Hl Hl').
Qed.

(** ** The dump as [try_cmd] returns it *)

Lemma linebreak_is_space c : is_linebreak c = true -> is_space c = true.
Proof.
  unfold is_linebreak, is_space.
  rewrite !orb_true_iff, !andb_true_iff, !N.leb_le, !N.eqb_eq. lia.
Qed.

Lemma stripped_has_line out :
  strip is_space out <> [] -> dump_lines (strip is_space out) <> [].
Proof.
  destruct (strip is_space out) as [|c r] eqn:E; [congruence|]. intros _.
  assert (Hc : is_space c = false)
    by (eapply (proj1 (strip_ends is_space out)); eauto).
  assert (Hb : is_linebreak c = false).
  { destruct (is_linebreak c) eqn:Eb; [|reflexivity].
    apply linebreak_is_space in Eb. congruence. }
  unfold dump_lines. rewrite splitlines_cons, Hb.
  assert (Hk : forall l, truthy (strip is_space (c :: l)) = true).
  { intros l. apply (@VpnFacts.nonblank_prefix [c] l). cbn. now rewrite Hc. }
  destruct (splitlines r) as [|l ls]; cbn [filter]; rewrite Hk; discriminate.
Qed.

Lemma try_cmd_stripped run :
  try_cmd run = [] \/ exists out, try_cmd run = strip is_space out /\
                                   strip is_space out <> [].
Proof.
  unfold try_cmd. destruct run as [out|]; cbn; [|now left].
  destruct (strip is_space out) eqn:E; [now left|].
  right. exists out. rewrite E. split; [reflexivity | discriminate].
Qed.

(** X14.  With the dump obtained through [try_cmd], the interface is
    reported as running exactly when the dump command printed
    something, or printed nothing while [systemctl] is there and calls
    the unit active; an interface record is present exactly when the
    dump command printed something.  The branch for a dump without
    lines is never taken. *)
Theorem running_iff_output rt name dump_cmd systemctl_cmd which t st :
  vpn_status rt name (host_of dump_cmd systemctl_cmd which t) = Ok st ->
  (running st = true <->
   try_cmd dump_cmd <> [] \/
   (which = true /\ try_cmd systemctl_cmd = lit "active")) /\
  (interface st <> None <-> try_cmd dump_cmd <> []).
Proof.
  unfold vpn_status, host_of. cbn [wg_dump has_systemctl unit_state now].
  destruct (try_cmd_stripped dump_cmd) as [E | (out & E & Hne)]; rewrite E.
  - cbn [truthy negb]. destruct which.
    + intros [= <-]. cbn. rewrite VpnFacts.str_eqb_eq. split.
      * split; [intros H; right; auto | intros [H | [_ H]]; congruence].
      * split; intros H; congruence.
    + intros [= <-]. cbn. split.
      * split; [discriminate | intros [H | [H _]]; congruence].
      * split; intros H; congruence.
  - destruct (strip is_space out) as [|c r] eqn:Es; [congruence|].
    cbn [truthy negb]. rewrite <- Es.
    pose proof (stripped_has_line out ltac:(rewrite Es; discriminate)) as Hl.
    destruct (dump_lines (strip is_space out)) as [|l0 rest]; [congruence|].
    destruct (parse_iface rt l0); cbn [bind]; [|discriminate].
    intros [= <-]. cbn. rewrite Es. split.
    + split; [intros _; left; discriminate | reflexivity].
    + split; intros _; discriminate.
Qed.

Import Samples.

Lemma peers_invariant_witness :
  exists st prs,
    vpn_status ascii_rt (lit "wg0")
      (host_with (dump3 (lit "privB64")) 1700000200) = Ok st /\
    peers st = Some prs /\
    Forall (peer_ok 1700000200) prs /\ length prs <= 3.
Proof.
  destruct (vpn_status ascii_rt (lit "wg0")
              (host_with (dump3 (lit "privB64")) 1700000200))
    as [st|] eqn:E; [|vm_compute in E; discriminate].
  destruct (peers st) as [prs|] eqn:Ep.
  - exists st, prs. split; [reflexivity|]. split; [exact Ep|].
    exact (@peers_invariant ascii_rt (lit "wg0")
             (host_with (dump3 (lit "privB64")) 1700000200) st prs E Ep).
  - vm_compute in E. injection E as <-. discriminate.
Defined.

(** Two dumps whose first peer line differs in the preshared key and in
    a ninth field. *)
Lemma preshared_key_not_exposed_witness :
  vpn_status ascii_rt (lit "wg0")
    (host_with (text_lines_of
       [iface_line (lit "privB64");
        tabbed [lit "peerA"; lit "PSK1"; lit "(none)"; lit "10.0.0.2/32";
                lit "5"; lit "6"; lit "7"; lit "8"];
        cut_line]) 1700000200) =
  vpn_status ascii_rt (lit "wg0")
    (host_with (text_lines_of
       [iface_line (lit "privB64");
        tabbed [lit "peerA"; lit "PSK2"; lit "(none)"; lit "10.0.0.2/32";
                lit "5"; lit "6"; lit "7"; lit "8"; lit "off"];
        cut_line]) 1700000200).
Proof.
  refine (@preshared_key_not_exposed ascii_rt (lit "wg0") _ _
            (iface_line (lit "privB64")) [] [cut_line] _ _
            (lit "peerA") (lit "PSK1") (lit "PSK2") (lit "(none)")
            (lit "10.0.0.2/32") (lit "5") (lit "6") (lit "7") (lit "8")
            [] [lit "off"] _ _ _ _ _);
    vm_compute; reflexivity.
Defined.

Lemma running_iff_output_witness :
  exists st,
    vpn_status ascii_rt (lit "wg0")
      (host_of (Ok (dump3 (lit "privB64") ++ [LF])) Raise false 1700000200)
      = Ok st /\
    running st = true /\ interface st <> None.
Proof.
  destruct (vpn_status ascii_rt (lit "wg0")
              (host_of (Ok (dump3 (lit "privB64") ++ [LF])) Raise false
                       1700000200))
    as [st|] eqn:E; [|vm_compute in E; discriminate].
  exists st. split; [reflexivity|].
  destruct (@running_iff_output ascii_rt (lit "wg0")
              (Ok (dump3 (lit "privB64") ++ [LF])) Raise false 1700000200 st E)
    as [Hr Hi].
  split; [apply Hr; left | apply Hi]; vm_compute; discriminate.
Defined.

(** Nothing printed and no [systemctl]: the type is ["unknown"]. *)
Example no_dump_no_systemctl :
  vpn_status ascii_rt (lit "wg0") (host_of Raise Raise false 1700000200) =
  Ok {| type := lit "unknown"; iface := None; running := false;
        interface := None; peers := None |}.
Proof. vm_compute. reflexivity. Qed.

End VpnMore.

(** * Facts about the log endpoints *)

Module ServiceFacts.
Import Tail Service.

Lemma last_lines_twice {A} a b (l : list A) :
  last_lines a (last_lines b l) = last_lines (Nat.min a b) l.
Proof.
  unfold last_lines. rewrite length_skipn, skipn_skipn. f_equal. lia.
Qed.

Lemma last_slice_pos {A} (k : nat) (l : list A) :
  1 <= k -> last_slice (Z.of_nat k) l = last_lines k l.
Proof.
  intros Hk. rewrite TailFacts.last_slice_last_lines by lia.
  rewrite Nat2Z.id. unfold last_lines. f_equal. lia.
Qed.

(** The failures of [tail_file] give the empty list. *)
Lemma tail_fails_empty fs path n :
  tail_fails fs path n -> tail_file fs path n = Some [].
Proof.
  unfold tail_file, tail_file_block, tail_body.
  intros [H | f H1 H2 | f sz H1 H2 H3 | f H1 H2].
  - rewrite H. reflexivity.
  - rewrite H1, H2. reflexivity.
  - rewrite H1, H2.
    rewrite (@TailFacts.scan_faults_raise f 1024 n ltac:(lia) _ H3)
      by (simpl; lia).
    reflexivity.
  - rewrite H1, H2. cbn. unfold last_slice. now rewrite skipn_nil.
Qed.

Section Json.

Variable json : Type.
Variable loads : str -> io json.
Variable lookup : json -> str -> io (option json).
Variable jtruthy : json -> bool.
Variable jnone : json.
Variable jstr : str -> json.
Variable jobj : list (str * json) -> json.

Let event_of (L : str) : event json :=
  try_except (json_event loads lookup jtruthy jnone jstr L) (raw_event jstr L).

Let entry_of (L : str) : json :=
  try_except (loads L) (jobj [(lit "raw", jstr L)]).

Lemma events_loop_map lines :
  forall events,
  events_loop loads lookup jtruthy jnone jstr lines events
    = events ++ map event_of lines.
Proof.
  induction lines as [|L r IH]; intros events; simpl.
  - now rewrite app_nil_r.
  - rewrite IH, <- app_assoc. reflexivity.
Qed.

Lemma history_loop_map lines :
  forall history,
  history_loop loads jstr jobj lines history = history ++ map entry_of lines.
Proof.
  induction lines as [|L r IH]; intros history; simpl.
  - now rewrite app_nil_r.
  - rewrite IH, <- app_assoc. reflexivity.
Qed.

(** X15.  [owncloud_recent] returns one event for each of the last
    five lines that [tail_file] returned, in their order: never more
    than five, and fewer only if there are fewer lines. *)
Theorem owncloud_at_most_five fs path n :
  exists lines evs,
    tail_file fs path n = Some lines /\
    owncloud_recent loads lookup jtruthy jnone jstr fs path n = Some evs /\
    evs = map (fun L => try_except
                          (json_event loads lookup jtruthy jnone jstr L)
                          (raw_event jstr L))
              (last_lines 5 lines) /\
    length evs = Nat.min 5 (length lines).
Proof.
  destruct (TailMore.tail_file_returns fs path n) as [bs Hbs].
  unfold owncloud_recent. rewrite Hbs. cbn [option_map].
  do 2 eexists. split; [reflexivity|]. split; [reflexivity|].
  rewrite events_loop_map, app_nil_l. subst event_of.
  rewrite (@last_slice_pos _ 5) by lia.
  rewrite TailFacts.last_lines_map. split; [reflexivity|].
  rewrite length_map. unfold last_lines. rewrite length_skipn. lia.
Qed.

(** X16.  A line that [json.loads] refuses, or that is JSON but not an
    object, gives the fallback event: empty time and level, app
    ["raw"], and as message the last 200 characters of the line (the
    whole line if it has no more than 200). *)
Theorem raw_event_fallback L :
  loads L = Raise \/
  (exists obj, loads L = Ok obj /\ lookup obj (lit "time") = Raise) ->
  events_loop loads lookup jtruthy jnone jstr [L] [] =
    [{| time := jstr []; level := jstr []; app := jstr (lit "raw");
        message := jstr (skipn (length L - 200) L) |}] /\
  length (skipn (length L - 200) L) <= 200 /\
  (length L <= 200 -> skipn (length L - 200) L = L).
Proof.
  intros H.
  assert (Hs : last_slice 200 L = skipn (length L - 200) L).
  { rewrite (@last_slice_pos _ 200) by lia. reflexivity. }
  assert (Hr : json_event loads lookup jtruthy jnone jstr L = Raise).
  { unfold json_event. destruct H as [-> | (obj & -> & Hk)]; [reflexivity|].
    cbn [bind]. unfold por, get. rewrite Hk. reflexivity. }
  repeat split.
  - cbn [events_loop app]. rewrite Hr. cbn [try_except].
    unfold raw_event. now rewrite Hs.
  - rewrite length_skipn. lia.
  - intros Hl. replace (length L - 200) with 0 by lia. reflexivity.
Qed.

(** X21.  A JSON object with none of the seven keys that
    [owncloud_recent] reads, whatever other keys it has, gives an
    event with four empty strings, not the fallback event. *)
Theorem empty_object_event L obj :
  jtruthy jnone = false ->
  loads L = Ok obj ->
  (forall key,
     In key [lit "time"; lit "datetime"; lit "level"; lit "app";
             lit "message"; lit "msg"; lit "reqId"] ->
     lookup obj key = Ok None) ->
  events_loop loads lookup jtruthy jnone jstr [L] [] =
    [{| time := jstr []; level := jstr []; app := jstr [];
        message := jstr [] |}].
Proof.
  intros Hnone Hl Hk. cbn [events_loop app].
  unfold json_event, por, get, get_or. rewrite Hl. cbn [bind].
  repeat (rewrite ?Hnone; try rewrite Hk by (simpl; auto 10); cbn [bind]).
  reflexivity.
Qed.

(** X17.  On a readable log and for [n >= 1], [owncloud_recent]
    reports the last [min(5, n, L)] lines of the file, one event each,
    oldest first. *)
Theorem owncloud_reports_last_lines fs path content n :
  fs path = Ok (file_of content) -> (1 <= n)%Z ->
  owncloud_recent loads lookup jtruthy jnone jstr fs path n =
    Some (map (fun L => try_except
                          (json_event loads lookup jtruthy jnone jstr L)
                          (raw_event jstr L))
              (last_lines
                 (Nat.min 5 (Nat.min (Z.to_nat n) (length (text_lines content))))
                 (text_lines content))).
Proof.
  intros Hfs Hn. unfold owncloud_recent, tail_file.
  rewrite (@TailFacts.tail_block_result fs path content n 1024 Hfs Hn)
    by lia.
  cbn [option_map]. f_equal.
  rewrite events_loop_map, app_nil_l. subst event_of.
  rewrite (@last_slice_pos _ 5) by lia.
  rewrite TailFacts.last_lines_map. f_equal.
  rewrite TailFacts.last_slice_last_lines by exact Hn.
  apply last_lines_twice.
Qed.

(** X18.  [backups_summary] always returns: the latest summary is what
    [json.load] gave, or [{"status": "unknown"}] if the summary could
    not be opened or parsed; the recent list has at most five entries
    and is empty when the history cannot be read. *)
Theorem backups_degrade summary fs path n :
  exists b,
    backups_summary loads jstr jobj summary fs path n = Some b /\
    latest b =
      match summary with
      | Ok j => j
      | Raise => jobj [(lit "status", jstr (lit "unknown"))]
      end /\
    length (recent b) <= 5 /\
    (tail_fails fs path n -> recent b = []).
Proof.
  destruct (TailMore.tail_file_returns fs path n) as [bs Hbs].
  unfold backups_summary. rewrite Hbs. cbn [option_map].
  eexists. split; [reflexivity|]. cbn [latest recent].
  split; [destruct summary; reflexivity|]. split.
  - rewrite (@last_slice_pos _ 5) by lia.
    unfold last_lines. rewrite length_skipn. lia.
  - intros Hf. apply tail_fails_empty in Hf. rewrite Hf in Hbs.
    injection Hbs as <-. reflexivity.
Qed.

(** X19.  On a readable history and for [n >= 1], the recent list of
    [backups_summary] holds the last [min(5, n, L)] lines of the file,
    oldest first: the value of a line that [json.loads] accepts, and
    [{"raw": line}] for one that it refuses. *)
Theorem backups_reports_last_lines summary fs path content n :
  fs path = Ok (file_of content) -> (1 <= n)%Z ->
  exists b,
    backups_summary loads jstr jobj summary fs path n = Some b /\
    recent b =
      map (fun L => match loads L with
                    | Ok j => j
                    | Raise => jobj [(lit "raw", jstr L)]
                    end)
          (last_lines
             (Nat.min 5 (Nat.min (Z.to_nat n) (length (text_lines content))))
             (text_lines content)).
Proof.
  intros Hfs Hn. unfold backups_summary, tail_file.
  rewrite (@TailFacts.tail_block_result fs path content n 1024 Hfs Hn)
    by lia.
  cbn [option_map]. eexists. split; [reflexivity|]. cbn [recent].
  rewrite history_loop_map, app_nil_l. subst entry_of.
  rewrite (@last_slice_pos _ 5) by lia.
  rewrite TailFacts.last_lines_map.
  rewrite TailFacts.last_slice_last_lines by exact Hn.
  rewrite last_lines_twice. reflexivity.
Qed.

End Json.

Import Samples Samples2.

(** The line [oops] is no JSON. *)
Lemma raw_event_fallback_witness :
  events_loop toy_loads toy_lookup toy_truthy TNone TStr [lit "oops"] [] =
    [{| time := TStr []; level := TStr []; app := TStr (lit "raw");
        message := TStr (lit "oops") |}].
Proof.
  exact (proj1 (@raw_event_fallback toy_json toy_loads toy_lookup toy_truthy
                  TNone TStr (lit "oops") (or_introl eq_refl))).
Defined.

Lemma empty_object_event_witness :
  events_loop (fun _ => Ok (TObj [(lit "other", lit "v")])) toy_lookup
              toy_truthy TNone TStr [lit "{other: v}"] [] =
    [{| time := TStr []; level := TStr []; app := TStr [];
        message := TStr [] |}].
Proof.
  apply (@empty_object_event toy_json
           (fun _ => Ok (TObj [(lit "other", lit "v")])) toy_lookup
           toy_truthy TNone TStr (lit "{other: v}")
           (TObj [(lit "other", lit "v")]) eq_refl eq_refl).
  intros key [<-|[<-|[<-|[<-|[<-|[<-|[<-|[]]]]]]]]; reflexivity.
Defined.

(** [null] is JSON and has no [get]. *)
Example null_line_is_raw :
  events_loop toy_loads toy_lookup toy_truthy TNone TStr [lit "null"] [] =
    [raw_event TStr (lit "null")].
Proof. vm_compute. reflexivity. Qed.

(** Seven lines in the log, fifty asked for: the last five are
    reported. *)
Lemma owncloud_reports_last_lines_witness :
  option_map (map (@message toy_json))
    (owncloud_recent toy_loads toy_lookup toy_truthy TNone TStr
                     log_file [] 50) =
  Some [TStr (lit "{b}"); TStr (lit "null"); TStr (lit "{c}");
        TStr (lit "{d}"); TStr (lit "bad")].
Proof.
  rewrite (@owncloud_reports_last_lines toy_json toy_loads toy_lookup
             toy_truthy TNone TStr log_file [] (unlines log_lines) 50
             eq_refl ltac:(lia)).
  vm_compute. reflexivity.
Defined.

Lemma backups_reports_last_lines_witness :
  exists b,
    backups_summary toy_loads TStr toy_obj Raise log_file [] 50 = Some b /\
    length (recent b) = 5.
Proof.
  destruct (@backups_reports_last_lines toy_json toy_loads TStr toy_obj Raise
              log_file [] (unlines log_lines) 50 eq_refl ltac:(lia))
    as (b & Hb & Hr).
  exists b. split; [exact Hb|]. rewrite Hr. vm_compute. reflexivity.
Defined.

Lemma backups_degrade_witness :
  exists b,
    backups_summary toy_loads TStr toy_obj Raise
      (fun _ => Raise) [] 50 = Some b /\
    latest b = toy_obj [(lit "status", TStr (lit "unknown"))] /\
    recent b = [].
Proof.
  destruct (@backups_degrade toy_json toy_loads TStr toy_obj Raise
              (fun _ => Raise) [] 50) as (b & Hb & Hl & _ & Hr).
  exists b. split; [exact Hb|]. split; [exact Hl|].
  apply Hr. now apply open_fails.
Defined.

End ServiceFacts.
